(** * AI Image Fusion: image intake and the fusion request pipeline

    A shallow embedding of the three source files of the application:
    the shared types ([UploadedImage], [GeneratedResult]), the service
    module with [mergeImagesWithAI], and the [App] component with its
    handlers [handleFileChange], [handleRemoveImage] and [handleSubmit].

    JavaScript strings are modelled as [string]; a character stands for
    one code unit in the range 0..255.  The external generation service
    is a function from the request to the outcome of the call, and every
    dispatch is recorded in a log, so that "no network call" is a
    statement about that log. *)

From Stdlib Require Import String Ascii List Bool Arith NArith Lia DecimalString.
Import ListNotations.
Open Scope string_scope.

(* ================================================================== *)
(** ** JavaScript primitives used by the program *)
(* ================================================================== *)

Module Js.

(** The characters [String.prototype.trim] removes (WhiteSpace and
    LineTerminator of ECMAScript) among the code units below 256:
    TAB, LF, VT, FF, CR, SPACE and NO-BREAK SPACE. *)
Definition isWhitespace (c : ascii) : bool :=
  let n := nat_of_ascii c in
  (n =? 9)%nat || (n =? 10)%nat || (n =? 11)%nat || (n =? 12)%nat
  || (n =? 13)%nat || (n =? 32)%nat || (n =? 160)%nat.

Fixpoint trimStart (s : string) : string :=
  match s with
  | EmptyString => EmptyString
  | String c rest => if isWhitespace c then trimStart rest else s
  end.

Fixpoint trimEnd (s : string) : string :=
  match s with
  | EmptyString => EmptyString
  | String c rest =>
      match trimEnd rest with
      | EmptyString => if isWhitespace c then EmptyString else String c EmptyString
      | kept => String c kept
      end
  end.

(** [s.trim()] *)
Definition trim (s : string) : string := trimEnd (trimStart s).

(** Truthiness of a string value: only the empty string is falsy. *)
Definition truthy (s : string) : bool :=
  match s with
  | EmptyString => false
  | String _ _ => true
  end.

(** [s.split(sep)] for a one-character separator: the segments between
    the occurrences of [sep], in order; never the empty array. *)
Fixpoint split (sep : ascii) (s : string) : list string :=
  match s with
  | EmptyString => [EmptyString]
  | String c rest =>
      if Ascii.eqb c sep then EmptyString :: split sep rest
      else match split sep rest with
           | seg :: segs => String c seg :: segs
           | [] => [String c EmptyString]
           end
  end.

(** [arr.includes(x)] on an array of strings. *)
Definition includes (arr : list string) (x : string) : bool :=
  existsb (String.eqb x) arr.

(** Conversion of a non-negative integer to its decimal string, as a
    template literal does with the number [Date.now()] returns. *)
Definition numberToString (n : N) : string :=
  NilZero.string_of_uint (N.to_uint n).

Definition comma : ascii := ascii_of_nat 44.
Definition dquote : string := String (ascii_of_nat 34) EmptyString.

(** Thrown values: an [Error] instance with its message, or any other
    value. *)
Inductive Thrown : Type :=
| ErrorObject (message : string)
| OtherValue.

(** How a computation completes: normally with a value, or abruptly
    with a thrown value. *)
Inductive Completion (A : Type) : Type :=
| Normal (value : A)
| Abrupt (thrown : Thrown).
Arguments Normal {A} value.
Arguments Abrupt {A} thrown.

(** Messages of the [TypeError]s of the engine, in the wording of V8:
    reading a property of [undefined], and iterating over a value that
    is not iterable (the message quotes the expression). *)
Definition readOfUndefined (property : string) : string :=
  "Cannot read properties of undefined (reading '" ++ property ++ "')".

Definition notIterable (expression : string) : string :=
  expression ++ " is not iterable".

(** [arr.map(f)] where the callback may throw: the elements are
    visited in order and the first throw ends the traversal. *)
Fixpoint mapThrowing {A B : Type} (f : A -> Completion B) (arr : list A)
  : Completion (list B) :=
  match arr with
  | [] => Normal []
  | x :: rest =>
      match f x with
      | Abrupt e => Abrupt e
      | Normal y =>
          match mapThrowing f rest with
          | Abrupt e => Abrupt e
          | Normal ys => Normal (y :: ys)
          end
      end
  end.

End Js.

(* ================================================================== *)
(** ** Shared types (types.ts) *)
(* ================================================================== *)

Module Types.

(** The part of a DOM [File] the program reads: its name and its
    declared MIME type. *)
Record File : Type := mkFile {
  name : string;
  type : string
}.

Record UploadedImage : Type := mkUploadedImage {
  id : string;
  file : File;
  base64 : string;
  mimeType : string
}.

Record GeneratedResult : Type := mkGeneratedResult {
  image : option string;
  text : option string
}.

End Types.

(* ================================================================== *)
(** ** The generation SDK as the program uses it *)
(* ================================================================== *)

Module GenAI.

Record Blob : Type := mkBlob {
  mimeType : string;
  data : string
}.

(** A [Part] has optional fields; the program reads [inlineData] and
    [text].  Both may be present on the same part. *)
Record Part : Type := mkPart {
  inlineData : option Blob;
  text : option string
}.

(** [parts] is an optional field of the SDK's [Content], and [content]
    an optional field of its [Candidate]: a candidate that was blocked
    comes without content. *)
Record Content : Type := mkContent {
  parts : option (list Part)
}.

Record Candidate : Type := mkCandidate {
  content : option Content
}.

Record GenerateContentResponse : Type := mkResponse {
  candidates : option (list Candidate)
}.

Inductive Modality : Type := IMAGE | TEXT.

Record GenerateContentParameters : Type := mkParameters {
  model : string;
  contents : Content;
  responseModalities : list Modality
}.

(** What awaiting the call yields: the promise resolves with a
    response or rejects with a thrown value. *)
Inductive Outcome : Type :=
| Resolved (response : GenerateContentResponse)
| Rejected (thrown : Js.Thrown).

(** The external generation service. *)
Definition Service : Type := GenerateContentParameters -> Outcome.

End GenAI.

(* ================================================================== *)
(** ** services/geminiService.ts *)
(* ================================================================== *)

Module GeminiService.
Import Js Types GenAI.

(** An asynchronous computation that may call the service: it takes
    the log of the requests dispatched so far and returns its
    completion with the extended log. *)
Definition Async (A : Type) : Type :=
  list GenerateContentParameters -> Completion A * list GenerateContentParameters.

Definition ret {A : Type} (a : A) : Async A := fun log => (Normal a, log).

Definition throw {A : Type} (e : Thrown) : Async A := fun log => (Abrupt e, log).

Definition bind {A B : Type} (m : Async A) (k : A -> Async B) : Async B :=
  fun log =>
    match m log with
    | (Normal a, log') => k a log'
    | (Abrupt e, log') => (Abrupt e, log')
    end.

Definition lift {A : Type} (c : Completion A) : Async A := fun log => (c, log).

Definition tryCatch {A : Type} (body : Async A) (handler : Thrown -> Async A)
  : Async A :=
  fun log =>
    match body log with
    | (Normal a, log') => (Normal a, log')
    | (Abrupt e, log') => handler e log'
    end.

(** [await ai.models.generateContent(request)]: the one place where a
    request leaves the program. *)
Definition generateContent (ai : Service) (request : GenerateContentParameters)
  : Async GenerateContentResponse :=
  fun log =>
    (match ai request with
     | Resolved response => Normal response
     | Rejected e => Abrupt e
     end, (log ++ [request])%list).

Notation "x <- m ;; k" := (bind m (fun x => k))
  (at level 61, m at next level, right associativity).

Definition fullPrompt (backgroundPrompt : string) : string :=
  "Merge the subjects from the provided images into a single, cohesive new image. The new background for this scene should be: "
  ++ dquote ++ backgroundPrompt ++ dquote
  ++ ". Please ensure the lighting and shadows on the subjects match the new background for a realistic and natural look.".

(** The callback of [images.map]. *)
Definition toInlinePart (img : UploadedImage) : Completion Part :=
  match nth_error (split comma (base64 img)) 1 with
  | Some base64Data =>
      if truthy base64Data
      then Normal (mkPart (Some (mkBlob (Types.mimeType img) base64Data)) None)
      else Abrupt (ErrorObject ("Invalid base64 data for image " ++ name (file img)))
  | None =>
      Abrupt (ErrorObject ("Invalid base64 data for image " ++ name (file img)))
  end.

Definition dataUri (blob : Blob) : string :=
  "data:" ++ GenAI.mimeType blob ++ ";base64," ++ data blob.

(** The body of the [for] loop over the parts of the first candidate. *)
Definition scanPart (result : GeneratedResult) (part : Part) : GeneratedResult :=
  match inlineData part with
  | Some blob => mkGeneratedResult (Some (dataUri blob)) (Types.text result)
  | None =>
      match GenAI.text part with
      | Some t =>
          if truthy t then mkGeneratedResult (image result) (Some t) else result
      | None => result
      end
  end.

(** [response.candidates[0].content.parts], read without a guard: a
    first candidate without content makes the property read throw, and
    a content without parts makes the [for] loop throw. *)
Definition firstCandidateParts (first : Candidate) : Completion (list Part) :=
  match content first with
  | None => Abrupt (ErrorObject (readOfUndefined "parts"))
  | Some c =>
      match parts c with
      | None => Abrupt (ErrorObject (notIterable "response.candidates[0].content.parts"))
      | Some ps => Normal ps
      end
  end.

(** From [const result = { image: null, text: null }] to the end of the
    guarded loop. *)
Definition parseResponse (response : GenerateContentResponse)
  : Completion GeneratedResult :=
  let result := mkGeneratedResult None None in
  match candidates response with
  | Some (first :: _) =>
      match firstCandidateParts first with
      | Normal ps => Normal (fold_left scanPart ps result)
      | Abrupt e => Abrupt e
      end
  | Some [] => Normal result
  | None => Normal result
  end.

Definition noImageMessage : string :=
  "The AI did not return an image. Please try adjusting your prompt or using different images.".

Definition modelName : string := "gemini-2.5-flash-image-preview".

(** The [try] block and its [catch]; the [console.error] of the handler
    writes to the console only and is left out. *)
Definition mergeImagesWithAI (ai : Service) (images : list UploadedImage)
    (backgroundPrompt : string) : Async GeneratedResult :=
  tryCatch
    (inlineParts <- lift (mapThrowing toInlinePart images) ;;
     let parts := mkPart None (Some (fullPrompt backgroundPrompt)) :: inlineParts in
     response <- generateContent ai
                   (mkParameters modelName (mkContent (Some parts)) [IMAGE; TEXT]) ;;
     result <- lift (parseResponse response) ;;
     match image result with
     | Some uri => if truthy uri then ret result
                   else throw (ErrorObject noImageMessage)
     | None => throw (ErrorObject noImageMessage)
     end)
    (fun error =>
       match error with
       | ErrorObject message =>
           throw (ErrorObject ("Failed to generate image: " ++ message))
       | OtherValue =>
           throw (ErrorObject "An unknown error occurred during image generation.")
       end).

End GeminiService.

(* ================================================================== *)
(** ** The App component *)
(* ================================================================== *)

Module App.
Import Js Types GenAI.

(** What one call of [handleFileChange] leaves behind for the
    [onload] callbacks it registered: the number of selected files,
    the array [newImages] those callbacks share, and the files whose
    read was started and has not completed yet. *)
Record Batch : Type := mkBatch {
  filesLength : nat;
  newImages : list UploadedImage;
  reading : list File
}.

(** The five [useState] cells of the component, followed by the
    pending batches and the log of dispatched requests. *)
Record State : Type := mkState {
  uploadedImages : list UploadedImage;
  backgroundPrompt : string;
  isLoading : bool;
  error : option string;
  generatedResult : option GeneratedResult;
  batches : list Batch;
  dispatched : list GenerateContentParameters
}.

Definition initial : State :=
  mkState [] EmptyString false None None [] [].

Definition setUploadedImages (v : list UploadedImage) (st : State) : State :=
  mkState v (backgroundPrompt st) (isLoading st) (error st)
          (generatedResult st) (batches st) (dispatched st).

Definition setBackgroundPrompt (v : string) (st : State) : State :=
  mkState (uploadedImages st) v (isLoading st) (error st)
          (generatedResult st) (batches st) (dispatched st).

Definition setIsLoading (v : bool) (st : State) : State :=
  mkState (uploadedImages st) (backgroundPrompt st) v (error st)
          (generatedResult st) (batches st) (dispatched st).

Definition setError (v : option string) (st : State) : State :=
  mkState (uploadedImages st) (backgroundPrompt st) (isLoading st) v
          (generatedResult st) (batches st) (dispatched st).

Definition setGeneratedResult (v : option GeneratedResult) (st : State) : State :=
  mkState (uploadedImages st) (backgroundPrompt st) (isLoading st) (error st)
          v (batches st) (dispatched st).

Definition setBatches (v : list Batch) (st : State) : State :=
  mkState (uploadedImages st) (backgroundPrompt st) (isLoading st) (error st)
          (generatedResult st) v (dispatched st).

Definition setDispatched (v : list GenerateContentParameters) (st : State) : State :=
  mkState (uploadedImages st) (backgroundPrompt st) (isLoading st) (error st)
          (generatedResult st) (batches st) v.

Definition allowedTypes : list string :=
  ["image/jpeg"; "image/png"; "image/webp"].

Definition capMessage : string := "You can upload a maximum of 5 images.".

Definition typeMessage (t : string) : string :=
  "File type " ++ t ++ " is not supported. Please use JPG, PNG, or WEBP.".

(** The callback of [Array.from(files).forEach].  [uploaded] is the
    [uploadedImages] of the render the handler belongs to; [b] holds
    the handler's [newImages], which only [onload] pushes to. *)
Definition forEachFile (uploaded : list UploadedImage)
    (acc : State * Batch) (file : File) : State * Batch :=
  let (st, b) := acc in
  if (5 <=? length uploaded + length (newImages b))%nat
  then (setError (Some capMessage) st, b)
  else if negb (includes allowedTypes (type file))
  then (setError (Some (typeMessage (type file))) st, b)
  else (st, mkBatch (filesLength b) (newImages b) (reading b ++ [file])%list).

Definition handleFileChange (files : option (list File)) (st : State) : State :=
  match files with
  | None => st
  | Some files =>
      let (st', b) :=
        fold_left (forEachFile (uploadedImages st)) files
                  (st, mkBatch (length files) [] []) in
      setError None (setBatches (batches st' ++ [b])%list st')
  end.

Fixpoint replaceNth {A : Type} (n : nat) (x : A) (l : list A) : list A :=
  match l, n with
  | [], _ => []
  | _ :: rest, O => x :: rest
  | y :: rest, S n' => y :: replaceNth n' x rest
  end.

Fixpoint removeNth {A : Type} (n : nat) (l : list A) : list A :=
  match l, n with
  | [], _ => []
  | _ :: rest, O => rest
  | y :: rest, S n' => y :: removeNth n' rest
  end.

(** [reader.onload] of the file [f] of batch number [bi].  [result] is
    [e.target?.result] when it is a string; [now] is [Date.now()]. *)
Definition onload (bi : nat) (f : File) (result : option string) (now : N)
    (st : State) : State :=
  match result, nth_error (batches st) bi with
  | Some r, Some b =>
      let img := mkUploadedImage (name f ++ "-" ++ numberToString now) f r (type f) in
      let b' := mkBatch (filesLength b) (newImages b ++ [img])%list (reading b) in
      let st' := setBatches (replaceNth bi b' (batches st)) st in
      if (length (newImages b') =? filesLength b')%nat
      then setUploadedImages (uploadedImages st' ++ newImages b')%list st'
      else st'
  | _, _ => st
  end.

Definition handleRemoveImage (id : string) (st : State) : State :=
  setUploadedImages
    (filter (fun img => negb (String.eqb (Types.id img) id)) (uploadedImages st))
    st.

Definition validationMessage : string :=
  "Please upload at least 2 images and provide a background description.".

(** [handleSubmit], run to the end of its [finally] block. *)
Definition handleSubmit (ai : Service) (st : State) : State :=
  if (length (uploadedImages st) <? 2)%nat || negb (truthy (trim (backgroundPrompt st)))
  then setError (Some validationMessage) st
  else
    let st1 := setGeneratedResult None (setIsLoading true (setError None st)) in
    let (completion, log) :=
      GeminiService.mergeImagesWithAI ai (uploadedImages st) (backgroundPrompt st)
                                      (dispatched st1) in
    let st2 := setDispatched log st1 in
    let st3 :=
      match completion with
      | Normal result => setGeneratedResult (Some result) st2
      | Abrupt (ErrorObject message) => setError (Some message) st2
      | Abrupt OtherValue => setError (Some "An unexpected error occurred.") st2
      end in
    setIsLoading false st3.

(** What can happen to the component. *)
Inductive Event : Type :=
| FilesSelected (files : option (list File))
| ReadCompleted (batch reader : nat) (result : option string) (now : N)
| ReadFailed (batch reader : nat)
| RemoveClicked (id : string)
| PromptTyped (value : string)
| SubmitClicked (ai : Service).

(** The read numbered [reader] of batch [bi] is over: it leaves the
    readers in flight. *)
Definition finishRead (bi reader : nat) (st : State) : State :=
  match nth_error (batches st) bi with
  | Some b =>
      setBatches
        (replaceNth bi (mkBatch (filesLength b) (newImages b)
                                (removeNth reader (reading b)))
                    (batches st)) st
  | None => st
  end.

Definition readerFile (bi reader : nat) (st : State) : option File :=
  match nth_error (batches st) bi with
  | Some b => nth_error (reading b) reader
  | None => None
  end.

(** One event.  A read can only complete or fail while it is in
    flight; an event naming no such read changes nothing. *)
Definition step (st : State) (ev : Event) : State :=
  match ev with
  | FilesSelected files => handleFileChange files st
  | ReadCompleted bi reader result now =>
      match readerFile bi reader st with
      | Some f => onload bi f result now (finishRead bi reader st)
      | None => st
      end
  | ReadFailed bi reader =>
      match readerFile bi reader st with
      | Some _ => finishRead bi reader st
      | None => st
      end
  | RemoveClicked id => handleRemoveImage id st
  | PromptTyped value => setBackgroundPrompt value st
  | SubmitClicked ai => handleSubmit ai st
  end.

Definition run (st : State) (evs : list Event) : State := fold_left step evs st.

(** [isValidToSubmit], computed at each render. *)
Definition isValidToSubmit (st : State) : bool :=
  (2 <=? length (uploadedImages st))%nat
  && (0 <? String.length (trim (backgroundPrompt st)))%nat.

(** The [disabled] attribute of the submit button. *)
Definition submitDisabled (st : State) : bool :=
  negb (isValidToSubmit st) || isLoading st.

End App.

(* ================================================================== *)
(** ** The specification's vocabulary *)
(* ================================================================== *)

Module Spec.
Import Js Types GenAI.

Fixpoint contains (c : ascii) (s : string) : bool :=
  match s with
  | EmptyString => false
  | String d rest => Ascii.eqb d c || contains c rest
  end.

(** "Splitting on the first comma and taking the remainder": what
    follows the first comma of [s], if [s] has a comma. *)
Fixpoint afterFirstComma (s : string) : option string :=
  match s with
  | EmptyString => None
  | String c rest => if Ascii.eqb c comma then Some rest else afterFirstComma rest
  end.

(** A data URI whose base64 segment is missing: nothing follows its
    first comma, or it has no comma at all. *)
Definition missingSegment (uri : string) : bool :=
  match afterFirstComma uri with
  | Some payload => negb (truthy payload)
  | None => true
  end.

(** A well-formed payload: a non-empty, comma-free segment follows the
    first comma. *)
Definition wellFormed (uri : string) : bool :=
  match afterFirstComma uri with
  | Some payload => truthy payload && negb (contains comma payload)
  | None => false
  end.

(** The payload with the data-URI prefix stripped. *)
Definition stripPrefix (uri : string) : string :=
  match afterFirstComma uri with
  | Some payload => payload
  | None => EmptyString
  end.

(** The last element of [l] on which [f] is defined. *)
Fixpoint lastSome {A B : Type} (f : A -> option B) (l : list A) : option B :=
  match l with
  | [] => None
  | x :: rest =>
      match lastSome f rest with
      | Some y => Some y
      | None => f x
      end
  end.

(** An inline-image part is a part that carries inline data; it
    contributes the data URI of that data. *)
Definition imageOf (p : Part) : option string :=
  option_map GeminiService.dataUri (inlineData p).

(** A text part is a part without inline data that carries a non-empty
    text; it contributes that text. *)
Definition textOf (p : Part) : option string :=
  match inlineData p, GenAI.text p with
  | None, Some t => if truthy t then Some t else None
  | _, _ => None
  end.

Definition lastImage (ps : list Part) : option string := lastSome imageOf ps.
Definition lastText (ps : list Part) : option string := lastSome textOf ps.

(** A response none of whose scanned parts carries inline data. *)
Definition noInlineData (response : GenerateContentResponse) : bool :=
  match candidates response with
  | Some (first :: _) =>
      match content first with
      | Some c =>
          match parts c with
          | Some ps =>
              forallb (fun p => match inlineData p with Some _ => false | None => true end)
                      ps
          | None => true
          end
      | None => true
      end
  | _ => true
  end.

(** The parts a scan has to go through: those of the first candidate,
    when it has content with parts. *)
Definition partsToScan (response : GenerateContentResponse) : option (list Part) :=
  match candidates response with
  | Some (first :: _) =>
      match content first with
      | Some c => parts c
      | None => None
      end
  | _ => None
  end.

(** The scan as the specification words it: a part that carries inline
    image data sets [image], and a part that carries text sets [text]. *)
Definition scanPartAsWorded (result : GeneratedResult) (p : Part) : GeneratedResult :=
  let result' :=
    match inlineData p with
    | Some blob =>
        mkGeneratedResult
          (Some ("data:" ++ GenAI.mimeType blob ++ ";base64," ++ data blob))
          (Types.text result)
    | None => result
    end in
  match GenAI.text p with
  | Some t => mkGeneratedResult (image result') (Some t)
  | None => result'
  end.

(** The request for a prompt and the inline parts of the images. *)
Definition requestOf (prompt : string) (inlineParts : list Part)
  : GenerateContentParameters :=
  mkParameters GeminiService.modelName
    (mkContent (Some (mkPart None (Some (GeminiService.fullPrompt prompt))
                      :: inlineParts)))
    [IMAGE; TEXT].

(** One inline-image part per image: its MIME type and its payload
    with the prefix stripped. *)
Definition inlinePartOf (img : UploadedImage) : Part :=
  mkPart (Some (mkBlob (Types.mimeType img) (stripPrefix (base64 img)))) None.

(** The request as the specification words it: the instruction embeds
    the trimmed prompt. *)
Definition requestWithTrimmedPrompt (images : list UploadedImage) (prompt : string)
  : GenerateContentParameters :=
  requestOf (trim prompt) (map inlinePartOf images).

(** The image has no usable base64 data: the test of the [map]
    callback. *)
Definition noBase64Data (img : UploadedImage) : bool :=
  match nth_error (split comma (base64 img)) 1 with
  | Some base64Data => negb (truthy base64Data)
  | None => true
  end.

(** What the [map] callback throws for such an image. *)
Definition encodingError (img : UploadedImage) : Thrown :=
  ErrorObject ("Invalid base64 data for image " ++ name (file img)).

Definition allowed (t : string) : bool := includes App.allowedTypes t.

(** Every record and every file being read has an allowed type. *)
Definition batchAllowed (b : App.Batch) : Prop :=
  Forall (fun img => allowed (Types.mimeType img) = true) (App.newImages b)
  /\ Forall (fun f => allowed (type f) = true) (App.reading b).

Definition allAllowed (st : App.State) : Prop :=
  Forall (fun img => allowed (Types.mimeType img) = true) (App.uploadedImages st)
  /\ Forall batchAllowed (App.batches st).

(** A batch that cannot reach its commit test: fewer records and reads
    in flight than files selected. *)
Definition short (b : App.Batch) : Prop :=
  (length (App.newImages b) + length (App.reading b) < App.filesLength b)%nat.

(** Parts that the response scan treats alike: an empty text is no
    text, and the text of a part with inline data is not read. *)
Definition isEmptyText (p : Part) : bool :=
  match inlineData p, GenAI.text p with
  | None, Some EmptyString => true
  | _, _ => false
  end.

Definition dropTextOfImagePart (p : Part) : Part :=
  match inlineData p with
  | Some blob => mkPart (Some blob) None
  | None => p
  end.

(** The record [onload] pushes for the file [f], the read result [r] and
    the time [now]. *)
Definition recordOf (f : File) (r : string) (now : N) : UploadedImage :=
  mkUploadedImage (name f ++ "-" ++ numberToString now) f r (type f).

(** Reads of one batch that complete: which of the reads in flight, with
    what result, at what time. *)
Definition Completions : Type := list (nat * string * N).

Definition readEvents (bi : nat) (cs : Completions) : list App.Event :=
  map (fun c => match c with (k, r, now) => App.ReadCompleted bi k (Some r) now end) cs.

(** The records of the reads [cs] over the files [fs] in flight, in the
    order of completion; a completion that names no read in flight
    counts for nothing. *)
Fixpoint completed (cs : Completions) (fs : list File) : list UploadedImage :=
  match cs with
  | [] => []
  | (k, r, now) :: rest =>
      match nth_error fs k with
      | Some f => recordOf f r now :: completed rest (App.removeNth k fs)
      | None => completed rest fs
      end
  end.

(** A record as [onload] labels it. *)
Definition labelled (img : UploadedImage) : Prop :=
  Types.mimeType img = type (file img)
  /\ exists now, id img = name (file img) ++ "-" ++ numberToString now.

(** An inline-image part of an allowed type with a non-empty payload. *)
Definition soundPart (p : Part) : Prop :=
  exists mime payload,
    p = mkPart (Some (mkBlob mime payload)) None
    /\ allowed mime = true /\ truthy payload = true.

(** A request as a submission of the component builds it. *)
Definition soundRequest (req : GenerateContentParameters) : Prop :=
  exists prompt inlineParts,
    req = requestOf prompt inlineParts
    /\ truthy (trim prompt) = true
    /\ (2 <= length inlineParts)%nat
    /\ Forall soundPart inlineParts.

(** The thrown values [mergeImagesWithAI] lets out. *)
Definition reported (e : Thrown) : Prop :=
  (exists message, e = ErrorObject ("Failed to generate image: " ++ message))
  \/ e = ErrorObject "An unknown error occurred during image generation.".

(** The inline part the [map] callback returns for an image that has
    base64 data: its MIME type and the second segment of its payload. *)
Definition segmentPart (img : UploadedImage) : Part :=
  mkPart (Some (mkBlob (Types.mimeType img)
                       (match nth_error (split comma (base64 img)) 1 with
                        | Some base64Data => base64Data
                        | None => EmptyString
                        end))) None.

(** A batch that holds no more records and reads in flight than files
    were selected. *)
Definition balanced (b : App.Batch) : Prop :=
  (length (App.newImages b) + length (App.reading b) <= App.filesLength b)%nat.

(** The records of the collection and those waiting in the batches all
    satisfy [P]. *)
Definition recordsSatisfy (P : UploadedImage -> Prop) (st : App.State) : Prop :=
  Forall P (App.uploadedImages st)
  /\ Forall (fun b => Forall P (App.newImages b)) (App.batches st).

(** The number of clicks on the submit button among the events. *)
Definition submissions (evs : list App.Event) : nat :=
  length (filter (fun ev => match ev with App.SubmitClicked _ => true | _ => false end)
                 evs).

End Spec.

(* ================================================================== *)
(** ** Concrete inputs *)
(* ================================================================== *)

Module Fixtures.
Import Js Types GenAI.

Definition pngFile (n : string) : File := mkFile n "image/png".
Definition gifFile (n : string) : File := mkFile n "image/gif".

Definition pngUri : string := "data:image/png;base64,AAAA".

Definition pngImage (n : string) : UploadedImage :=
  mkUploadedImage (n ++ "-1000") (pngFile n) pngUri "image/png".

(** An image whose payload stops at the comma. *)
Definition brokenImage (n : string) : UploadedImage :=
  mkUploadedImage (n ++ "-1000") (pngFile n) "data:image/png;base64," "image/png".

Definition imagePart : Part := mkPart (Some (mkBlob "image/png" "AAAA")) None.
Definition textPart : Part := mkPart None (Some "A fused scene.").

Definition respond (ps : list Part) : Service :=
  fun _ => Resolved (mkResponse (Some [mkCandidate (Some (mkContent (Some ps)))])).

(** The stub of the specification: one image part and one text part. *)
Definition stubService : Service := respond [imagePart; textPart].

(** A stub that answers with a text part only. *)
Definition textOnlyService : Service := respond [textPart].

Definition twoImages : list UploadedImage := [pngImage "a.png"; pngImage "b.png"].

Definition sixFiles : list File :=
  [pngFile "1.png"; pngFile "2.png"; pngFile "3.png";
   pngFile "4.png"; pngFile "5.png"; pngFile "6.png"].

Definition fiveImages : list UploadedImage :=
  [pngImage "1.png"; pngImage "2.png"; pngImage "3.png";
   pngImage "4.png"; pngImage "5.png"].

Definition withImages (imgs : list UploadedImage) (prompt : string) : App.State :=
  App.setBackgroundPrompt prompt (App.setUploadedImages imgs App.initial).

(** An image part that also carries a text, and a text part whose text
    is empty. *)
Definition captionedImagePart : Part :=
  mkPart (Some (mkBlob "image/png" "AAAA")) (Some "A fused scene.").
Definition emptyTextPart : Part := mkPart None (Some EmptyString).

(** A service whose only candidate was blocked: it has no content. *)
Definition blockedService : Service :=
  fun _ => Resolved (mkResponse (Some [mkCandidate None])).

(** A service whose call is rejected with an [Error]. *)
Definition failingService (message : string) : Service :=
  fun _ => Rejected (ErrorObject message).

End Fixtures.

(* ================================================================== *)
(** ** Strings: splitting at commas *)
(* ================================================================== *)

Import Js Types GenAI GeminiService Spec.

Lemma contains_append (c : ascii) (a b : string) :
  contains c (a ++ b) = contains c a || contains c b.
Proof.
  induction a as [|d a IH]; cbn [contains append].
  - reflexivity.
  - rewrite IH. now rewrite orb_assoc.
Qed.


Lemma afterFirstComma_none (s : string) :
  afterFirstComma s = None <-> contains comma s = false.
Proof.
  induction s as [|c s IH]; cbn [contains afterFirstComma].
  - tauto.
  - destruct (Ascii.eqb c comma); cbn [orb].
    + split; discriminate.
    + exact IH.
Qed.

Lemma split_without_separator (s : string) :
  contains comma s = false -> split comma s = [s].
Proof.
  induction s as [|c s IH]; cbn [contains split]; intros H.
  - reflexivity.
  - apply orb_false_elim in H as [Hc Hs].
    rewrite Hc, (IH Hs). reflexivity.
Qed.

Lemma split_not_nil (sep : ascii) (s : string) : split sep s <> [].
Proof.
  destruct s as [|c s]; cbn [split].
  - discriminate.
  - destruct (Ascii.eqb c sep); [discriminate|].
    destruct (split sep s); discriminate.
Qed.

Lemma split_after_first_comma (s rest : string) :
  afterFirstComma s = Some rest ->
  nth_error (split comma s) 1 = hd_error (split comma rest).
Proof.
  revert rest. induction s as [|c s IH]; cbn [afterFirstComma split]; intros rest H.
  - discriminate.
  - destruct (Ascii.eqb c comma).
    + injection H as <-. destruct (split comma s); reflexivity.
    + specialize (IH rest H).
      pose proof (split_not_nil comma rest) as Hrest.
      destruct (split comma s) as [|seg segs]; cbn [nth_error] in *.
      * destruct (split comma rest); [contradiction | discriminate IH].
      * exact IH.
Qed.

(** The segment that [split(',')[1]] selects, for a URI whose remainder
    after the first comma has no further comma. *)
Lemma second_segment_is_remainder (uri payload : string) :
  afterFirstComma uri = Some payload ->
  contains comma payload = false ->
  nth_error (split comma uri) 1 = Some payload.
Proof.
  intros Hafter Hclean.
  rewrite (split_after_first_comma _ _ Hafter).
  now rewrite (split_without_separator _ Hclean).
Qed.

Lemma wellFormed_segment (uri : string) :
  wellFormed uri = true ->
  nth_error (split comma uri) 1 = Some (stripPrefix uri)
  /\ truthy (stripPrefix uri) = true.
Proof.
  unfold wellFormed, stripPrefix.
  destruct (afterFirstComma uri) as [payload|] eqn:Hafter; [|discriminate].
  intros H. apply andb_prop in H as [Hne Hclean].
  apply negb_true_iff in Hclean.
  split; [now apply second_segment_is_remainder | exact Hne].
Qed.

Lemma missingSegment_noBase64Data (img : UploadedImage) :
  missingSegment (base64 img) = true -> noBase64Data img = true.
Proof.
  unfold missingSegment, noBase64Data.
  destruct (afterFirstComma (base64 img)) as [payload|] eqn:Hafter.
  - intros H. rewrite (split_after_first_comma _ _ Hafter).
    destruct payload; [reflexivity | discriminate H].
  - intros _. apply afterFirstComma_none in Hafter.
    now rewrite (split_without_separator _ Hafter).
Qed.




(* ================================================================== *)
(** ** The fusion request pipeline *)
(* ================================================================== *)

Section Pipeline.

Variable ai : Service.
Variable prompt : string.
Variable log : list GenerateContentParameters.

Lemma toInlinePart_cases (img : UploadedImage) :
  (noBase64Data img = true /\ toInlinePart img = Abrupt (encodingError img))
  \/ (exists base64Data,
        nth_error (split comma (base64 img)) 1 = Some base64Data
        /\ noBase64Data img = false
        /\ toInlinePart img
           = Normal (mkPart (Some (mkBlob (Types.mimeType img) base64Data)) None)).
Proof.
  unfold noBase64Data, toInlinePart, encodingError.
  destruct (nth_error (split comma (base64 img)) 1) as [b|].
  - destruct (truthy b) eqn:Hb.
    + right. exists b. auto.
    + left. auto.
  - left. auto.
Qed.

Lemma toInlinePart_wellFormed (img : UploadedImage) :
  wellFormed (base64 img) = true -> toInlinePart img = Normal (inlinePartOf img).
Proof.
  intros H. apply wellFormed_segment in H as [Hseg Hne].
  unfold toInlinePart, inlinePartOf. now rewrite Hseg, Hne.
Qed.

Lemma map_wellFormed (images : list UploadedImage) :
  Forall (fun img => wellFormed (base64 img) = true) images ->
  mapThrowing toInlinePart images = Normal (map inlinePartOf images).
Proof.
  induction 1 as [|img images Himg _ IH]; cbn [mapThrowing map].
  - reflexivity.
  - now rewrite (toInlinePart_wellFormed _ Himg), IH.
Qed.

(** The traversal stops at the first image without base64 data. *)
Lemma map_first_failure (images : list UploadedImage) (img : UploadedImage) :
  find noBase64Data images = Some img ->
  mapThrowing toInlinePart images = Abrupt (encodingError img).
Proof.
  induction images as [|x images IH]; cbn [find mapThrowing]; intros H.
  - discriminate.
  - destruct (toInlinePart_cases x) as [[Hx ->] | (b & _ & Hx & ->)];
      rewrite Hx in H.
    + now injection H as ->.
    + now rewrite (IH H).
Qed.

Lemma find_exists (images : list UploadedImage) (img : UploadedImage) :
  In img images -> noBase64Data img = true ->
  exists first, find noBase64Data images = Some first.
Proof.
  intros Hin Hbad.
  destruct (find noBase64Data images) as [first|] eqn:Hfind.
  - now exists first.
  - now rewrite (find_none _ _ Hfind _ Hin) in Hbad.
Qed.

(** An encoding failure is reported through the [catch] block and
    leaves the log as it was. *)
Lemma merge_encoding_failure (images : list UploadedImage) (img : UploadedImage) :
  find noBase64Data images = Some img ->
  mergeImagesWithAI ai images prompt log
  = (Abrupt (ErrorObject ("Failed to generate image: Invalid base64 data for image "
                          ++ name (file img))), log).
Proof.
  intros H. unfold mergeImagesWithAI, tryCatch, bind, lift.
  rewrite (map_first_failure _ _ H). reflexivity.
Qed.

Lemma scanPart_fields (r : GeneratedResult) (p : Part) :
  image (scanPart r p)
  = match imageOf p with Some u => Some u | None => image r end
  /\ Types.text (scanPart r p)
     = match textOf p with Some t => Some t | None => Types.text r end.
Proof.
  unfold scanPart, imageOf, textOf.
  destruct (inlineData p) as [blob|]; cbn.
  - split; reflexivity.
  - destruct (GenAI.text p) as [t|]; [destruct (truthy t)|]; split; reflexivity.
Qed.

(** The loop over the parts is "last such part wins" for each field. *)
Lemma scan_last_wins (ps : list Part) (r : GeneratedResult) :
  fold_left scanPart ps r
  = mkGeneratedResult
      (match lastImage ps with Some u => Some u | None => image r end)
      (match lastText ps with Some t => Some t | None => Types.text r end).
Proof.
  revert r. induction ps as [|p ps IH]; intros r; cbn [fold_left].
  - now destruct r.
  - rewrite IH. destruct (scanPart_fields r p) as [-> ->].
    unfold lastImage, lastText. cbn [lastSome].
    destruct (lastSome imageOf ps), (lastSome textOf ps); reflexivity.
Qed.

Lemma lastSome_witness {A B : Type} (f : A -> option B) (l : list A) (y : B) :
  lastSome f l = Some y -> exists x, In x l /\ f x = Some y.
Proof.
  induction l as [|x l IH]; cbn [lastSome]; intros H.
  - discriminate.
  - destruct (lastSome f l) as [z|].
    + destruct (IH H) as (x' & Hin & Hx'). exists x'. split; [now right | exact Hx'].
    + exists x. split; [now left | exact H].
Qed.

Lemma lastImage_none (ps : list Part) :
  forallb (fun p => match inlineData p with Some _ => false | None => true end) ps
  = true ->
  lastImage ps = None.
Proof.
  unfold lastImage.
  induction ps as [|p ps IH]; cbn [lastSome forallb]; intros H.
  - reflexivity.
  - apply andb_prop in H as [Hp Hps]. rewrite (IH Hps).
    unfold imageOf. now destruct (inlineData p).
Qed.

Lemma lastSome_map {A B C : Type} (f : A -> option B) (g : B -> C) (l : list A) :
  lastSome (fun x => option_map g (f x)) l = option_map g (lastSome f l).
Proof.
  induction l as [|x l IH]; cbn [lastSome]; [reflexivity|].
  rewrite IH. now destruct (lastSome f l).
Qed.

(** What the unguarded read yields, in terms of the parts to scan. *)
Lemma parseResponse_scanned (response : GenerateContentResponse) (ps : list Part) :
  partsToScan response = Some ps ->
  parseResponse response = Normal (fold_left scanPart ps (mkGeneratedResult None None)).
Proof.
  unfold partsToScan, parseResponse, firstCandidateParts.
  destruct (candidates response) as [[|first rest]|]; try discriminate.
  destruct (content first) as [c|]; [|discriminate].
  now intros ->.
Qed.

Lemma parseResponse_normal (response : GenerateContentResponse)
    (result : GeneratedResult) :
  parseResponse response = Normal result ->
  exists ps, result = fold_left scanPart ps (mkGeneratedResult None None).
Proof.
  unfold parseResponse, firstCandidateParts.
  destruct (candidates response) as [[|first rest]|].
  - intros H. injection H as <-. now exists [].
  - destruct (content first) as [c|]; [|discriminate].
    destruct (parts c) as [ps|]; [|discriminate].
    intros H. injection H as <-. now exists ps.
  - intros H. injection H as <-. now exists [].
Qed.

Lemma parse_image_is_data_uri (response : GenerateContentResponse)
    (result : GeneratedResult) (uri : string) :
  parseResponse response = Normal result ->
  image result = Some uri ->
  exists blob, uri = dataUri blob.
Proof.
  intros Hparse. destruct (parseResponse_normal _ _ Hparse) as (ps & ->).
  rewrite scan_last_wins. cbn [image].
  destruct (lastImage ps) as [u|] eqn:Hlast; [|discriminate].
  intros H. injection H as <-.
  apply lastSome_witness in Hlast as (p & _ & Hp).
  unfold imageOf in Hp. destruct (inlineData p) as [blob|]; [|discriminate].
  exists blob. now injection Hp.
Qed.

Lemma dataUri_truthy (blob : Blob) : truthy (dataUri blob) = true.
Proof. reflexivity. Qed.

(** The run of the pipeline once the images are encoded and the
    service has answered. *)
Lemma merge_after_response (images : list UploadedImage) (inlineParts : list Part)
    (response : GenerateContentResponse) :
  mapThrowing toInlinePart images = Normal inlineParts ->
  ai (requestOf prompt inlineParts) = Resolved response ->
  mergeImagesWithAI ai images prompt log
  = (match parseResponse response with
     | Normal result =>
         match image result with
         | Some _ => Normal result
         | None => Abrupt (ErrorObject ("Failed to generate image: " ++ noImageMessage))
         end
     | Abrupt (ErrorObject message) =>
         Abrupt (ErrorObject ("Failed to generate image: " ++ message))
     | Abrupt OtherValue =>
         Abrupt (ErrorObject "An unknown error occurred during image generation.")
     end, (log ++ [requestOf prompt inlineParts])%list).
Proof.
  intros Hmap Hai.
  unfold mergeImagesWithAI, tryCatch, bind, lift, generateContent.
  rewrite Hmap. fold (requestOf prompt inlineParts). rewrite Hai.
  destruct (parseResponse response) as [result|[message|]] eqn:Hparse;
    try reflexivity.
  destruct (image result) as [uri|] eqn:Himg.
  - destruct (parse_image_is_data_uri _ _ _ Hparse Himg) as (blob & ->).
    rewrite dataUri_truthy. reflexivity.
  - reflexivity.
Qed.

(** Whatever the images, the service is called at most once, and only
    after every image has been encoded. *)
Lemma merge_log (images : list UploadedImage) :
  snd (mergeImagesWithAI ai images prompt log)
  = match mapThrowing toInlinePart images with
    | Normal inlineParts => (log ++ [requestOf prompt inlineParts])%list
    | Abrupt _ => log
    end.
Proof.
  unfold mergeImagesWithAI, tryCatch, bind, lift, generateContent.
  destruct (mapThrowing toInlinePart images) as [inlineParts|e].
  - fold (requestOf prompt inlineParts).
    destruct (ai (requestOf prompt inlineParts)) as [response|e].
    + destruct (parseResponse response) as [result|[message|]]; try reflexivity.
      destruct (image result) as [uri|]; [destruct (truthy uri)|]; reflexivity.
    + destruct e; reflexivity.
  - destruct e; reflexivity.
Qed.

End Pipeline.

(* ================================================================== *)
(** ** Properties of the fusion request pipeline *)
(* ================================================================== *)

Import Fixtures.

(** C3, as stated, at one image: [mergeImagesWithAI] has no guard of its
    own.  Called with a single image and a non-empty prompt it dispatches
    one request to the service and returns the service's result. *)
Lemma mergeImagesWithAI_dispatches_one_image :
  (length [pngImage "a.png"] < 2)%nat
  /\ mergeImagesWithAI stubService [pngImage "a.png"] "beach" []
     = (Normal (mkGeneratedResult (Some "data:image/png;base64,AAAA")
                                  (Some "A fused scene.")),
        [requestOf "beach" [imagePart]]).
Proof.
  split.
  - cbn. lia.
  - vm_compute. reflexivity.
Qed.

(** C3, amended: the preconditions are checked by [handleSubmit], the
    caller of the pipeline.  With fewer than 2 images, or with a prompt
    that is empty after trimming, [handleSubmit] only sets the validation
    message: [mergeImagesWithAI] is not called and no request is
    dispatched. *)
Theorem handleSubmit_validates_before_dispatch (ai : Service) (st : App.State) :
  (length (App.uploadedImages st) < 2)%nat
  \/ trim (App.backgroundPrompt st) = EmptyString ->
  App.handleSubmit ai st = App.setError (Some App.validationMessage) st
  /\ App.dispatched (App.handleSubmit ai st) = App.dispatched st.
Proof.
  intros H.
  assert (Hguard : (length (App.uploadedImages st) <? 2)%nat
                   || negb (truthy (trim (App.backgroundPrompt st))) = true).
  { destruct H as [Hlen | Hprompt].
    - apply Nat.ltb_lt in Hlen. now rewrite Hlen.
    - rewrite Hprompt. apply orb_true_r. }
  unfold App.handleSubmit. rewrite Hguard. split; reflexivity.
Qed.

Lemma handleSubmit_validates_before_dispatch_witness :
  ((length (App.uploadedImages (withImages [pngImage "a.png"] "beach")) < 2)%nat
   \/ trim (App.backgroundPrompt (withImages [pngImage "a.png"] "beach")) = EmptyString)
  /\ App.error (App.handleSubmit stubService (withImages [pngImage "a.png"] "beach"))
     = Some App.validationMessage
  /\ App.dispatched (App.handleSubmit stubService (withImages twoImages "   ")) = [].
Proof.
  assert (Hone : (length (App.uploadedImages (withImages [pngImage "a.png"] "beach")) < 2)%nat
                 \/ trim (App.backgroundPrompt (withImages [pngImage "a.png"] "beach"))
                    = EmptyString)
    by (left; cbn; lia).
  split; [exact Hone|]. split.
  - rewrite (proj1 (handleSubmit_validates_before_dispatch stubService
                      (withImages [pngImage "a.png"] "beach") Hone)).
    reflexivity.
  - rewrite (proj2 (handleSubmit_validates_before_dispatch stubService
                      (withImages twoImages "   ") (or_intror eq_refl))).
    reflexivity.
Defined.

(** C4, as stated, at a part that carries both an image and a text, and
    at a text part with an empty text after another text part: the scan
    worded by the claim sets [text] from every part that carries text,
    and gives the caption in the first case and the empty text in the
    second; the program returns a null text in the first case and the
    earlier text in the second. *)
Lemma scan_differs_from_wording :
  mergeImagesWithAI (respond [captionedImagePart]) twoImages "beach" []
  = (Normal (mkGeneratedResult (Some "data:image/png;base64,AAAA") None),
     [requestOf "beach" [imagePart; imagePart]])
  /\ fold_left scanPartAsWorded [captionedImagePart] (mkGeneratedResult None None)
     = mkGeneratedResult (Some "data:image/png;base64,AAAA") (Some "A fused scene.")
  /\ mergeImagesWithAI (respond [imagePart; textPart; emptyTextPart]) twoImages "beach" []
     = (Normal (mkGeneratedResult (Some "data:image/png;base64,AAAA")
                                  (Some "A fused scene.")),
        [requestOf "beach" [imagePart; imagePart]])
  /\ fold_left scanPartAsWorded [imagePart; textPart; emptyTextPart]
                (mkGeneratedResult None None)
     = mkGeneratedResult (Some "data:image/png;base64,AAAA") (Some EmptyString).
Proof.
  repeat split; vm_compute; reflexivity.
Qed.

(** C4, amended: once the images are encoded and the service has answered
    with a first candidate whose content has parts, the scan of these
    parts in order leaves in [image] the data URI
    data:<mimeType>;base64,<data> of the last part that carries inline
    data, and in [text] the text of the last part that carries no inline
    data and a non-empty text; this result is returned, after exactly one
    dispatch. *)
Theorem response_scan_last_part_wins (ai : Service) (images : list UploadedImage)
    (prompt : string) (log : list GenerateContentParameters)
    (inlineParts : list Part) (response : GenerateContentResponse)
    (scanned : list Part) (blob : Blob) :
  mapThrowing toInlinePart images = Normal inlineParts ->
  ai (requestOf prompt inlineParts) = Resolved response ->
  partsToScan response = Some scanned ->
  lastSome inlineData scanned = Some blob ->
  mergeImagesWithAI ai images prompt log
  = (Normal (mkGeneratedResult
               (Some ("data:" ++ GenAI.mimeType blob ++ ";base64," ++ data blob))
               (lastText scanned)),
     (log ++ [requestOf prompt inlineParts])%list).
Proof.
  intros Hmap Hai Hscan Hlast.
  rewrite (merge_after_response ai prompt log images inlineParts response Hmap Hai).
  rewrite (parseResponse_scanned response scanned Hscan), scan_last_wins.
  unfold lastImage, imageOf. rewrite lastSome_map, Hlast.
  cbn [option_map image Types.text]. unfold dataUri.
  now destruct (lastText scanned).
Qed.

(** The stub of the specification: one image part (image/png, AAAA) and
    one text part. *)
Lemma response_scan_last_part_wins_witness :
  mergeImagesWithAI stubService twoImages "beach" []
  = (Normal (mkGeneratedResult (Some "data:image/png;base64,AAAA")
                               (Some "A fused scene.")),
     [requestOf "beach" [imagePart; imagePart]]).
Proof.
  exact (response_scan_last_part_wins stubService twoImages "beach" []
           [imagePart; imagePart]
           (mkResponse (Some [mkCandidate (Some (mkContent (Some [imagePart; textPart])))]))
           [imagePart; textPart] (mkBlob "image/png" "AAAA")
           eq_refl eq_refl eq_refl eq_refl).
Defined.

(** When the service answers without candidates, or with a first
    candidate whose parts carry no inline data, the call fails with the
    "did not return an image" error after one dispatch. *)
Lemma missing_image_is_a_failure (ai : Service) (images : list UploadedImage)
    (prompt : string) (log : list GenerateContentParameters)
    (inlineParts : list Part) (response : GenerateContentResponse) :
  mapThrowing toInlinePart images = Normal inlineParts ->
  ai (requestOf prompt inlineParts) = Resolved response ->
  candidates response = None \/ candidates response = Some []
  \/ (exists ps, partsToScan response = Some ps
                 /\ forallb (fun p => match inlineData p with
                                      | Some _ => false
                                      | None => true
                                      end) ps = true) ->
  mergeImagesWithAI ai images prompt log
  = (Abrupt (ErrorObject ("Failed to generate image: " ++ noImageMessage)),
     (log ++ [requestOf prompt inlineParts])%list).
Proof.
  intros Hmap Hai Hno.
  rewrite (merge_after_response ai prompt log images inlineParts response Hmap Hai).
  destruct Hno as [Hnone | [Hempty | (ps & Hscan & Hps)]].
  - unfold parseResponse. now rewrite Hnone.
  - unfold parseResponse. now rewrite Hempty.
  - rewrite (parseResponse_scanned response ps Hscan), scan_last_wins.
    cbn [image]. now rewrite (lastImage_none _ Hps).
Qed.

(** C5 at a response whose first candidate has no content (a blocked
    candidate): no part carries inline data, yet the call does not fail
    with the "did not return an image" error.  The unguarded read of
    [content.parts] throws, and the [catch] block reports that
    [TypeError]. *)
Theorem blocked_candidate_reports_type_error :
  noInlineData (mkResponse (Some [mkCandidate None])) = true
  /\ mergeImagesWithAI blockedService twoImages "beach" []
     = (Abrupt (ErrorObject
          "Failed to generate image: Cannot read properties of undefined (reading 'parts')"),
        [requestOf "beach" [imagePart; imagePart]])
  /\ ErrorObject
       "Failed to generate image: Cannot read properties of undefined (reading 'parts')"
     <> ErrorObject ("Failed to generate image: " ++ noImageMessage).
Proof.
  split; [reflexivity|]. split; [vm_compute; reflexivity|].
  unfold noImageMessage. cbn. discriminate.
Qed.

(** C6, as stated, at the prompt " beach ": the instruction of the
    dispatched request embeds the prompt with its surrounding spaces,
    which is not the request built from the trimmed prompt. *)
Lemma instruction_embeds_untrimmed_prompt :
  snd (mergeImagesWithAI stubService twoImages " beach " [])
  = [requestOf " beach " (map inlinePartOf twoImages)]
  /\ requestOf " beach " (map inlinePartOf twoImages)
     <> requestWithTrimmedPrompt twoImages " beach ".
Proof.
  split.
  - vm_compute. reflexivity.
  - intros H. vm_compute in H. discriminate H.
Qed.

(** C6, amended: for images with well-formed payloads, the request is one
    ordered list of parts: first a single text instruction that embeds
    the background prompt exactly as it was passed (it is not trimmed),
    between double quotes, then one inline-image part per image, in the
    order of the collection, each with the image's MIME type and its
    payload with the data-URI prefix stripped. *)
Theorem request_parts_in_order (ai : Service) (images : list UploadedImage)
    (prompt : string) (log : list GenerateContentParameters) :
  Forall (fun img => wellFormed (base64 img) = true) images ->
  snd (mergeImagesWithAI ai images prompt log)
  = (log
     ++ [mkParameters "gemini-2.5-flash-image-preview"
           (mkContent
              (Some
                 (mkPart None
                    (Some
                       ("Merge the subjects from the provided images into a single, cohesive new image. The new background for this scene should be: "
                        ++ String "034"%char
                             (prompt
                              ++ String "034"%char
                                   ". Please ensure the lighting and shadows on the subjects match the new background for a realistic and natural look."))%string)
                  :: map (fun img =>
                            mkPart (Some (mkBlob (Types.mimeType img)
                                                 (stripPrefix (base64 img))))
                                   None)
                         images)))
           [IMAGE; TEXT]])%list.
Proof.
  intros H. rewrite merge_log, (map_wellFormed images H). reflexivity.
Qed.

Lemma request_parts_in_order_witness :
  snd (mergeImagesWithAI stubService twoImages " beach " [])
  = [mkParameters "gemini-2.5-flash-image-preview"
       (mkContent
          (Some
             [mkPart None
                (Some
                   ("Merge the subjects from the provided images into a single, cohesive new image. The new background for this scene should be: "
                    ++ String "034"%char
                         (" beach "
                          ++ String "034"%char
                               ". Please ensure the lighting and shadows on the subjects match the new background for a realistic and natural look.")));
              mkPart (Some (mkBlob "image/png" "AAAA")) None;
              mkPart (Some (mkBlob "image/png" "AAAA")) None]))
       [IMAGE; TEXT]].
Proof.
  apply (request_parts_in_order stubService twoImages " beach " []).
  repeat constructor.
Defined.

(** C7: when some image of the call has a missing base64 segment (nothing
    after the first comma of its data URI), the call fails with the
    encoding error that names the file of the first image without base64
    data, and the log of dispatched requests is unchanged: the service is
    not invoked. *)
Theorem missing_segment_fails_before_dispatch (ai : Service)
    (images : list UploadedImage) (prompt : string)
    (log : list GenerateContentParameters) (bad : UploadedImage) :
  In bad images ->
  missingSegment (base64 bad) = true ->
  exists offending,
    find noBase64Data images = Some offending
    /\ mergeImagesWithAI ai images prompt log
       = (Abrupt (ErrorObject ("Failed to generate image: Invalid base64 data for image "
                               ++ name (file offending))), log).
Proof.
  intros Hin Hmissing.
  destruct (find_exists images bad Hin (missingSegment_noBase64Data bad Hmissing))
    as (offending & Hfind).
  exists offending. split; [exact Hfind|].
  now apply merge_encoding_failure.
Qed.

Lemma missing_segment_fails_before_dispatch_witness :
  exists offending,
    find noBase64Data [pngImage "a.png"; brokenImage "b.png"] = Some offending
    /\ mergeImagesWithAI stubService [pngImage "a.png"; brokenImage "b.png"] "beach" []
       = (Abrupt (ErrorObject ("Failed to generate image: Invalid base64 data for image "
                               ++ name (file offending))), []).
Proof.
  exact (missing_segment_fails_before_dispatch stubService
           [pngImage "a.png"; brokenImage "b.png"] "beach" [] (brokenImage "b.png")
           (or_intror (or_introl eq_refl)) eq_refl).
Defined.



Lemma scanPart_dropText (r : GeneratedResult) (p : Part) :
  scanPart r (dropTextOfImagePart p) = scanPart r p.
Proof.
  unfold scanPart, dropTextOfImagePart.
  destruct (inlineData p) as [blob|] eqn:Hp; cbn [inlineData]; [|rewrite Hp]; reflexivity.
Qed.

Lemma scanPart_emptyText (r : GeneratedResult) (p : Part) :
  isEmptyText p = true -> scanPart r p = r.
Proof.
  unfold scanPart, isEmptyText.
  destruct (inlineData p); [discriminate|].
  destruct (GenAI.text p) as [[|c t]|]; try discriminate. reflexivity.
Qed.

(** C10: in the response scan, a part with both inline data and text
    contributes its image only, so its text may be dropped without
    changing the result of any scan; a part whose text is the empty
    string changes nothing, so such parts may be removed from any scan;
    and a scan that meets only parts of these two kinds leaves [text]
    null. *)
Theorem response_scan_edge_cases :
  (forall (result : GeneratedResult) (blob : Blob) (t : string),
      scanPart result (mkPart (Some blob) (Some t))
      = mkGeneratedResult (Some (dataUri blob)) (Types.text result))
  /\ (forall result : GeneratedResult,
         scanPart result (mkPart None (Some EmptyString)) = result)
  /\ (forall (ps : list Part) (result : GeneratedResult),
         fold_left scanPart (map dropTextOfImagePart ps) result
         = fold_left scanPart ps result)
  /\ (forall (ps : list Part) (result : GeneratedResult),
         fold_left scanPart (filter (fun p => negb (isEmptyText p)) ps) result
         = fold_left scanPart ps result)
  /\ (forall ps : list Part,
         match
           parseResponse
             (mkResponse
                (Some [mkCandidate
                         (Some
                            (mkContent
                               (Some
                                  (filter (fun p => isEmptyText p
                                                    || match inlineData p with
                                                       | Some _ => true
                                                       | None => false
                                                       end) ps))))]))
         with
         | Normal result => Types.text result = None
         | Abrupt _ => False
         end).
Proof.
  repeat split.
  - induction ps as [|p ps IH]; intros result; cbn [map fold_left].
    + reflexivity.
    + now rewrite scanPart_dropText, IH.
  - induction ps as [|p ps IH]; intros result; cbn [filter fold_left].
    + reflexivity.
    + destruct (isEmptyText p) eqn:Hp; cbn [negb fold_left].
      * now rewrite (scanPart_emptyText _ _ Hp), IH.
      * apply IH.
  - intros ps. unfold parseResponse, firstCandidateParts. cbn [candidates content parts].
    rewrite scan_last_wins. cbn [Types.text]. unfold lastText.
    induction ps as [|p ps IH]; cbn [filter lastSome].
    + reflexivity.
    + destruct (isEmptyText p
                || match inlineData p with Some _ => true | None => false end)
        eqn:Hp; cbn [lastSome].
      * destruct (lastSome textOf _); [discriminate IH|].
        unfold textOf, isEmptyText in *.
        destruct (inlineData p); [reflexivity|].
        destruct (GenAI.text p) as [[|c t]|]; try reflexivity. discriminate Hp.
      * exact IH.
Qed.

(* ================================================================== *)
(** ** Image intake *)
(* ================================================================== *)

Section Intake.
Import App.

Lemma Forall_replaceNth {A : Type} (P : A -> Prop) (n : nat) (x : A) (l : list A) :
  P x -> Forall P l -> Forall P (replaceNth n x l).
Proof.
  intros Hx Hl. revert n.
  induction Hl as [|y l Hy Hl IH]; intros [|n]; cbn [replaceNth];
    constructor; auto.
Qed.

Lemma Forall_removeNth {A : Type} (P : A -> Prop) (n : nat) (l : list A) :
  Forall P l -> Forall P (removeNth n l).
Proof.
  intros Hl. revert n.
  induction Hl as [|y l Hy Hl IH]; intros [|n]; cbn [removeNth];
    try constructor; auto.
Qed.

Lemma Forall_nth_error {A : Type} (P : A -> Prop) (n : nat) (x : A) (l : list A) :
  Forall P l -> nth_error l n = Some x -> P x.
Proof.
  intros Hl Hn. apply nth_error_In in Hn.
  rewrite Forall_forall in Hl. now apply Hl.
Qed.

(** One turn of the loop touches neither the collection nor the older
    batches, and starts a read for files of an allowed type only. *)
Lemma forEachFile_preserves (uploaded : list UploadedImage)
    (acc : State * Batch) (f : File) :
  uploadedImages (fst (forEachFile uploaded acc f)) = uploadedImages (fst acc)
  /\ batches (fst (forEachFile uploaded acc f)) = batches (fst acc)
  /\ (batchAllowed (snd acc) -> batchAllowed (snd (forEachFile uploaded acc f))).
Proof.
  destruct acc as [st b]. unfold forEachFile.
  destruct (5 <=? length uploaded + length (newImages b))%nat; [cbn; auto|].
  destruct (includes allowedTypes (type f)) eqn:Hf; cbn [negb]; [|cbn; auto].
  cbn [fst snd]. split; [reflexivity|]. split; [reflexivity|].
  intros [Hnew Hread]. split; cbn [newImages reading]; [exact Hnew|].
  apply Forall_app. split; [exact Hread | now constructor].
Qed.

Lemma forEach_preserves (uploaded : list UploadedImage) (files : list File)
    (acc : State * Batch) :
  uploadedImages (fst (fold_left (forEachFile uploaded) files acc))
  = uploadedImages (fst acc)
  /\ batches (fst (fold_left (forEachFile uploaded) files acc)) = batches (fst acc)
  /\ (batchAllowed (snd acc) ->
      batchAllowed (snd (fold_left (forEachFile uploaded) files acc))).
Proof.
  revert acc. induction files as [|f files IH]; intros acc; cbn [fold_left].
  - auto.
  - destruct (IH (forEachFile uploaded acc f)) as (Hu & Hb & Ha).
    destruct (forEachFile_preserves uploaded acc f) as (Hu' & Hb' & Ha').
    rewrite Hu, Hb, Hu', Hb'. auto.
Qed.

Lemma handleFileChange_allowed (files : option (list File)) (st : State) :
  allAllowed st -> allAllowed (handleFileChange files st).
Proof.
  intros [Himgs Hbatches]. destruct files as [files|]; cbn [handleFileChange].
  - destruct (forEach_preserves (uploadedImages st) files
                (st, mkBatch (length files) [] [])) as (Hu & Hb & Ha).
    destruct (fold_left _ files _) as [st' b]. cbn [fst snd] in *.
    split; cbn.
    + now rewrite Hu.
    + apply Forall_app. split.
      * now rewrite Hb.
      * constructor; [|constructor]. apply Ha. split; constructor.
  - now split.
Qed.

(** The handler always ends with [setError(null)]. *)
Lemma handleFileChange_clears_error (files : list File) (st : State) :
  error (handleFileChange (Some files) st) = None.
Proof.
  cbn [handleFileChange]. now destruct (fold_left _ files _).
Qed.

Lemma finishRead_allowed (bi reader : nat) (st : State) :
  allAllowed st -> allAllowed (finishRead bi reader st).
Proof.
  intros [Himgs Hbatches]. unfold finishRead.
  destruct (nth_error (batches st) bi) as [b|] eqn:Hb; [|now split].
  split; cbn; [exact Himgs|].
  apply Forall_replaceNth; [|exact Hbatches].
  destruct (Forall_nth_error _ _ _ _ Hbatches Hb) as [Hnew Hread].
  split; cbn; [exact Hnew | now apply Forall_removeNth].
Qed.

Lemma onload_allowed (bi : nat) (f : File) (result : option string) (now : N)
    (st : State) :
  allowed (type f) = true -> allAllowed st -> allAllowed (onload bi f result now st).
Proof.
  intros Hf [Himgs Hbatches]. unfold onload.
  destruct result as [r|]; [|now split].
  destruct (nth_error (batches st) bi) as [b|] eqn:Hb; [|now split].
  destruct (Forall_nth_error _ _ _ _ Hbatches Hb) as [Hnew Hread].
  assert (Hnew' : Forall (fun img => allowed (Types.mimeType img) = true)
                         (newImages b ++ [mkUploadedImage
                                            (name f ++ "-" ++ numberToString now)
                                            f r (type f)])).
  { apply Forall_app. split; [exact Hnew | now constructor]. }
  assert (Hbatches' :
            Forall batchAllowed
              (replaceNth bi
                 (mkBatch (filesLength b)
                    (newImages b ++ [mkUploadedImage
                                       (name f ++ "-" ++ numberToString now)
                                       f r (type f)])
                    (reading b))
                 (batches st))).
  { apply Forall_replaceNth; [|exact Hbatches]. now split. }
  cbn [newImages filesLength].
  destruct (_ =? _)%nat; split; cbn; try assumption.
  apply Forall_app. now split.
Qed.

Lemma handleSubmit_frame (ai : Service) (st : State) :
  uploadedImages (handleSubmit ai st) = uploadedImages st
  /\ batches (handleSubmit ai st) = batches st.
Proof.
  unfold handleSubmit.
  destruct (_ || _); [now split|].
  destruct (mergeImagesWithAI _ _ _ _) as [[result|[message|]] log']; now split.
Qed.

Lemma readerFile_allowed (bi reader : nat) (st : State) (f : File) :
  allAllowed st -> readerFile bi reader st = Some f -> allowed (type f) = true.
Proof.
  intros [_ Hbatches]. unfold readerFile.
  destruct (nth_error (batches st) bi) as [b|] eqn:Hb; [|discriminate].
  destruct (Forall_nth_error _ _ _ _ Hbatches Hb) as [_ Hread].
  exact (Forall_nth_error _ _ _ _ Hread).
Qed.

Lemma step_allowed (st : State) (ev : Event) :
  allAllowed st -> allAllowed (step st ev).
Proof.
  intros Hst. destruct ev as [files|bi reader result now|bi reader|id|value|ai];
    cbn [step].
  - now apply handleFileChange_allowed.
  - destruct (readerFile bi reader st) as [f|] eqn:Hf; [|exact Hst].
    apply onload_allowed.
    + exact (readerFile_allowed _ _ _ _ Hst Hf).
    + now apply finishRead_allowed.
  - destruct (readerFile bi reader st); [now apply finishRead_allowed | exact Hst].
  - destruct Hst as [Himgs Hbatches]. split; cbn; [|exact Hbatches].
    rewrite Forall_forall in *. intros img Himg.
    apply filter_In in Himg as [Himg _]. now apply Himgs.
  - exact Hst.
  - destruct Hst as [Himgs Hbatches].
    destruct (handleSubmit_frame ai st) as [Hu Hb].
    split; [now rewrite Hu | now rewrite Hb].
Qed.

Lemma nth_error_replaceNth {A : Type} (n : nat) (x y : A) (l : list A) :
  nth_error l n = Some y -> nth_error (replaceNth n x l) n = Some x.
Proof.
  revert n. induction l as [|z l IH]; intros [|n]; cbn [replaceNth nth_error];
    try discriminate; auto.
Qed.

Lemma length_removeNth {A : Type} (n : nat) (x : A) (l : list A) :
  nth_error l n = Some x -> S (length (removeNth n l)) = length l.
Proof.
  revert n. induction l as [|z l IH]; intros [|n]; cbn [removeNth nth_error length];
    try discriminate; auto.
Qed.

(** The loop starts at most one read per file, none for a file of a
    disallowed type, and pushes no record. *)
Lemma forEach_counts (uploaded : list UploadedImage) (files : list File)
    (acc : State * Batch) :
  filesLength (snd (fold_left (forEachFile uploaded) files acc)) = filesLength (snd acc)
  /\ newImages (snd (fold_left (forEachFile uploaded) files acc)) = newImages (snd acc)
  /\ (length (reading (snd (fold_left (forEachFile uploaded) files acc)))
      <= length (reading (snd acc)) + length files)%nat
  /\ ((exists f, In f files /\ allowed (type f) = false) ->
      (length (reading (snd (fold_left (forEachFile uploaded) files acc)))
       < length (reading (snd acc)) + length files)%nat).
Proof.
  revert acc. induction files as [|f files IH]; intros acc; cbn [fold_left length].
  - repeat split; try lia. intros (f & [] & _).
  - destruct (IH (forEachFile uploaded acc f)) as (Hlen & Hnew & Hle & Hlt).
    rewrite Hlen, Hnew. clear Hlen Hnew.
    destruct acc as [st b]. unfold forEachFile in *. cbn [snd] in *.
    destruct (5 <=? length uploaded + length (newImages b))%nat;
      [cbn [snd] in *; repeat split; lia|].
    unfold allowed in *.
    destruct (includes allowedTypes (type f)) eqn:Hf; cbn [negb snd] in *.
    + cbn [filesLength newImages reading] in *.
      rewrite length_app in *. cbn [length] in *.
      repeat split; try lia.
      intros (g & [<- | Hg] & Hbad); [congruence|].
      assert (exists f0, In f0 files /\ includes allowedTypes (type f0) = false)
        by (now exists g).
      specialize (Hlt H). lia.
    + repeat split; lia.
Qed.

(** A selection with a file of a disallowed type leaves a batch that is
    short, a collection that is unchanged and a null message. *)
Lemma rejected_file_leaves_short_batch (files : list File) (f : File) (st : State) :
  In f files -> allowed (type f) = false ->
  exists b,
    batches (handleFileChange (Some files) st) = (batches st ++ [b])%list
    /\ short b
    /\ uploadedImages (handleFileChange (Some files) st) = uploadedImages st
    /\ error (handleFileChange (Some files) st) = None.
Proof.
  intros Hin Hbad. cbn [handleFileChange].
  destruct (forEach_preserves (uploadedImages st) files
              (st, mkBatch (length files) [] [])) as (Hu & Hb & _).
  destruct (forEach_counts (uploadedImages st) files
              (st, mkBatch (length files) [] [])) as (Hlen & Hnew & _ & Hlt).
  specialize (Hlt (ex_intro _ f (conj Hin Hbad))).
  destruct (fold_left _ files _) as [st' b]. cbn [fst snd] in *.
  exists b. cbn. rewrite Hb, Hu. repeat split.
  cbn [filesLength newImages reading length] in Hlen, Hnew, Hlt.
  unfold short. rewrite Hlen, Hnew. cbn [length]. lia.
Qed.

(** A read of a short batch that completes appends nothing to the
    collection, and the batch stays short. *)
Lemma short_batch_never_commits (st : State) (bi reader : nat) (b : Batch)
    (result : option string) (now : N) :
  nth_error (batches st) bi = Some b -> short b ->
  uploadedImages (step st (ReadCompleted bi reader result now)) = uploadedImages st
  /\ exists b',
       nth_error (batches (step st (ReadCompleted bi reader result now))) bi = Some b'
       /\ short b'.
Proof.
  intros Hb Hshort. unfold short in Hshort. cbn [step]. unfold readerFile. rewrite Hb.
  destruct (nth_error (reading b) reader) as [f|] eqn:Hf.
  - pose proof (length_removeNth _ _ _ Hf) as Hlen.
    unfold finishRead. rewrite Hb. unfold onload.
    cbn [batches setBatches].
    rewrite (nth_error_replaceNth bi _ b _ Hb).
    destruct result as [r|].
    + cbn [newImages filesLength reading setBatches batches uploadedImages].
      rewrite length_app. cbn [length].
      destruct (Nat.eqb_spec (length (newImages b) + 1) (filesLength b)) as [Heq|_];
        [lia|].
      split; [reflexivity|]. cbn [batches setBatches].
      eexists. split.
      * eapply nth_error_replaceNth.
        eapply nth_error_replaceNth. exact Hb.
      * unfold short. cbn [newImages filesLength reading].
        rewrite length_app. cbn [length]. lia.
    + split; [reflexivity|]. cbn [batches setBatches].
      eexists. split; [eapply nth_error_replaceNth; exact Hb|].
      unfold short. cbn [newImages filesLength reading]. lia.
  - split; [reflexivity|]. now exists b.
Qed.

(** While the collection holds fewer than five records, the cap test
    lets every file of an allowed type through, however many there are. *)
Lemma cap_test_ignores_batch (uploaded : list UploadedImage) (files : list File)
    (st : State) (n : nat) (started : list File) :
  (length uploaded < 5)%nat ->
  Forall (fun f => allowed (type f) = true) files ->
  snd (fold_left (forEachFile uploaded) files (st, mkBatch n [] started))
  = mkBatch n [] (started ++ files)%list.
Proof.
  intros Hcap Hfiles. revert st started.
  induction Hfiles as [|f files Hf _ IH]; intros st started; cbn [fold_left].
  - now rewrite app_nil_r.
  - unfold forEachFile at 2. cbn [newImages length].
    destruct (Nat.leb_spec 5 (length uploaded + 0)) as [Hge|_]; [lia|].
    unfold allowed in Hf. rewrite Hf. cbn [negb filesLength reading].
    rewrite IH, <- app_assoc. reflexivity.
Qed.

Lemma run_allowed (evs : list Event) (st : State) :
  allAllowed st -> allAllowed (run st evs).
Proof.
  revert st. induction evs as [|ev evs IH]; intros st Hst; cbn [run fold_left].
  - exact Hst.
  - apply IH. now apply step_allowed.
Qed.

End Intake.

(** C9: whatever happens to the component from its initial state (file
    selections, reads that complete or fail in any order, removals,
    prompt edits, submissions), every record of the collection has a MIME
    type of the allow-list, and so has every record waiting in a batch
    and every file whose read is in flight: the type is checked before
    the read is started, and removal only filters the collection. *)
Theorem collection_types_allowed (evs : list App.Event) :
  Forall (fun img => includes App.allowedTypes (Types.mimeType img) = true)
         (App.uploadedImages (App.run App.initial evs))
  /\ Forall batchAllowed (App.batches (App.run App.initial evs)).
Proof.
  apply (run_allowed evs App.initial). split; constructor.
Qed.

(** C1 at the batch [a.png (image/png); b.gif (image/gif)] selected in
    the initial state: when [handleFileChange] returns the message is
    null, and when the read of a.png has completed the collection is
    still empty, because one record was pushed and two files had been
    selected. *)
Theorem invalid_file_discards_batch :
  App.error (App.run App.initial
               [App.FilesSelected (Some [pngFile "a.png"; gifFile "b.gif"])])
  = None
  /\ App.batches (App.run App.initial
                    [App.FilesSelected (Some [pngFile "a.png"; gifFile "b.gif"])])
     = [App.mkBatch 2 [] [pngFile "a.png"]]
  /\ App.uploadedImages
       (App.run App.initial
          [App.FilesSelected (Some [pngFile "a.png"; gifFile "b.gif"]);
           App.ReadCompleted 0 0 (Some pngUri) 1000])
     = []
  /\ App.batches
       (App.run App.initial
          [App.FilesSelected (Some [pngFile "a.png"; gifFile "b.gif"]);
           App.ReadCompleted 0 0 (Some pngUri) 1000])
     = [App.mkBatch 2 [pngImage "a.png"] []].
Proof.
  repeat split; vm_compute; reflexivity.
Qed.

(** C2 at six PNG files selected in the initial state: every one of them
    passes the cap test, since [newImages] is still empty while the loop
    runs, and once the six reads have completed the collection holds six
    records.  With five records already accepted, one more file starts no
    read and leaves the five records as they are, and the message is
    null when the handler returns. *)
Theorem six_files_exceed_cap :
  length (App.uploadedImages
            (App.run App.initial
               (App.FilesSelected (Some sixFiles)
                :: repeat (App.ReadCompleted 0 0 (Some pngUri) 1000) 6)))
  = 6%nat
  /\ App.uploadedImages
       (App.handleFileChange (Some [pngFile "6.png"]) (withImages fiveImages "beach"))
     = fiveImages
  /\ App.batches
       (App.handleFileChange (Some [pngFile "6.png"]) (withImages fiveImages "beach"))
     = [App.mkBatch 1 [] []]
  /\ App.error
       (App.handleFileChange (Some [pngFile "6.png"]) (withImages fiveImages "beach"))
     = None.
Proof.
  repeat split; vm_compute; reflexivity.
Qed.
(* ================================================================== *)
(** ** Removal *)
(* ================================================================== *)

Lemma filter_all {A : Type} (p : A -> bool) (l : list A) :
  Forall (fun x => p x = true) l -> filter p l = l.
Proof.
  induction 1 as [|x l Hx _ IH]; cbn [filter].
  - reflexivity.
  - now rewrite Hx, IH.
Qed.

Lemma filter_commute {A : Type} (p q : A -> bool) (l : list A) :
  filter p (filter q l) = filter q (filter p l).
Proof.
  induction l as [|x l IH]; cbn [filter].
  - reflexivity.
  - destruct (p x) eqn:Hp, (q x) eqn:Hq; cbn [filter];
      rewrite ?Hp, ?Hq, IH; reflexivity.
Qed.

Lemma filter_twice {A : Type} (p : A -> bool) (l : list A) :
  filter p (filter p l) = filter p l.
Proof.
  induction l as [|x l IH]; cbn [filter].
  - reflexivity.
  - destruct (p x) eqn:Hp; cbn [filter]; rewrite ?Hp, IH; reflexivity.
Qed.

(** X1: removing an id that no record of the collection carries changes
    nothing at all. *)
Theorem remove_absent_id (id : string) (st : App.State) :
  Forall (fun img => Types.id img <> id) (App.uploadedImages st) ->
  App.handleRemoveImage id st = st.
Proof.
  intros H. unfold App.handleRemoveImage. rewrite filter_all.
  - now destruct st.
  - eapply Forall_impl; [|exact H]. intros img Himg. cbn beta.
    apply negb_true_iff. now apply String.eqb_neq.
Qed.

Lemma remove_absent_id_witness :
  App.handleRemoveImage "c.png-1000" (withImages twoImages "beach")
  = withImages twoImages "beach".
Proof.
  apply (remove_absent_id "c.png-1000" (withImages twoImages "beach")).
  repeat constructor; cbn; discriminate.
Defined.

(** X2: removal deletes exactly the records that carry the id, all of
    them if several do, and keeps the others; the prompt, the message,
    the result, the pending batches and the log are as before. *)
Theorem remove_deletes_exactly_the_id (id : string) (st : App.State) :
  (forall img,
      In img (App.uploadedImages (App.handleRemoveImage id st))
      <-> In img (App.uploadedImages st) /\ Types.id img <> id)
  /\ (length (App.uploadedImages (App.handleRemoveImage id st))
      <= length (App.uploadedImages st))%nat
  /\ App.backgroundPrompt (App.handleRemoveImage id st) = App.backgroundPrompt st
  /\ App.error (App.handleRemoveImage id st) = App.error st
  /\ App.generatedResult (App.handleRemoveImage id st) = App.generatedResult st
  /\ App.batches (App.handleRemoveImage id st) = App.batches st
  /\ App.dispatched (App.handleRemoveImage id st) = App.dispatched st.
Proof.
  split; [|split; [|repeat split]].
  - intros img. cbn. rewrite filter_In, negb_true_iff, String.eqb_neq. tauto.
  - cbn. apply filter_length_le.
Qed.

(** X3: removals compose: removing the same id twice is removing it
    once, and two removals give the same state in either order. *)
Theorem removals_commute (a b : string) (st : App.State) :
  App.handleRemoveImage a (App.handleRemoveImage a st) = App.handleRemoveImage a st
  /\ App.handleRemoveImage a (App.handleRemoveImage b st)
     = App.handleRemoveImage b (App.handleRemoveImage a st).
Proof.
  unfold App.handleRemoveImage, App.setUploadedImages. cbn. split.
  - now rewrite filter_twice.
  - now rewrite filter_commute.
Qed.

(* ================================================================== *)
(** ** Outcomes of the pipeline *)
(* ================================================================== *)

Lemma map_segmentParts (images : list UploadedImage) :
  existsb noBase64Data images = false ->
  mapThrowing toInlinePart images = Normal (map segmentPart images).
Proof.
  induction images as [|img images IH]; cbn [existsb map mapThrowing]; intros H.
  - reflexivity.
  - apply orb_false_elim in H as [Himg Hrest].
    destruct (toInlinePart_cases img) as [[Hbad _] | (d & Hd & _ & ->)];
      [congruence|].
    rewrite (IH Hrest). unfold segmentPart. now rewrite Hd.
Qed.

Lemma map_failure_is_encoding_error (images : list UploadedImage) :
  existsb noBase64Data images = true ->
  exists img, In img images /\ noBase64Data img = true
              /\ mapThrowing toInlinePart images = Abrupt (encodingError img).
Proof.
  intros H. apply existsb_exists in H as (bad & Hin & Hbad).
  destruct (find_exists images bad Hin Hbad) as (img & Hfind).
  exists img. apply find_some in Hfind as Hsome. destruct Hsome as [Himg Hno].
  repeat split; try assumption. now apply map_first_failure.
Qed.

(** X4: for every input, the service is called exactly once when every
    image has base64 data and not at all otherwise; the request then
    carries the instruction followed by one inline part per image, in
    order, and what the service answers plays no part in it. *)
Theorem dispatch_once_or_never (ai : Service) (images : list UploadedImage)
    (prompt : string) (log : list GenerateContentParameters) :
  snd (mergeImagesWithAI ai images prompt log)
  = if existsb noBase64Data images then log
    else (log ++ [requestOf prompt (map segmentPart images)])%list.
Proof.
  rewrite merge_log.
  destruct (existsb noBase64Data images) eqn:Hbad.
  - destruct (map_failure_is_encoding_error images Hbad) as (img & _ & _ & ->).
    reflexivity.
  - now rewrite (map_segmentParts images Hbad).
Qed.

(** X5: a rejected call is reported, and not retried: when the images are
    encoded and the service rejects the request, the pipeline throws
    "Failed to generate image: " followed by the message of the
    rejection, or the "unknown error" message when the rejection is not
    an [Error], after exactly one dispatch. *)
Theorem transport_failure_is_wrapped (ai : Service) (images : list UploadedImage)
    (prompt : string) (log : list GenerateContentParameters) (e : Thrown) :
  existsb noBase64Data images = false ->
  ai (requestOf prompt (map segmentPart images)) = Rejected e ->
  mergeImagesWithAI ai images prompt log
  = (Abrupt (ErrorObject
               match e with
               | ErrorObject message => "Failed to generate image: " ++ message
               | OtherValue => "An unknown error occurred during image generation."
               end),
     (log ++ [requestOf prompt (map segmentPart images)])%list).
Proof.
  intros Himgs Hai.
  unfold mergeImagesWithAI, tryCatch, bind, lift, generateContent.
  rewrite (map_segmentParts images Himgs).
  fold (requestOf prompt (map segmentPart images)). rewrite Hai.
  now destruct e.
Qed.

Lemma transport_failure_is_wrapped_witness :
  mergeImagesWithAI (failingService "503 Service Unavailable") twoImages "beach" []
  = (Abrupt (ErrorObject "Failed to generate image: 503 Service Unavailable"),
     [requestOf "beach" [imagePart; imagePart]]).
Proof.
  exact (transport_failure_is_wrapped (failingService "503 Service Unavailable")
           twoImages "beach" [] (ErrorObject "503 Service Unavailable")
           eq_refl eq_refl).
Defined.

Lemma abrupt_is_reported (ai : Service) (images : list UploadedImage)
    (prompt : string) (log log' : list GenerateContentParameters) (e : Thrown) :
  mergeImagesWithAI ai images prompt log = (Abrupt e, log') ->
  reported e.
Proof.
  unfold mergeImagesWithAI, tryCatch, bind, lift, generateContent, reported.
  destruct (existsb noBase64Data images) eqn:Hbad.
  - destruct (map_failure_is_encoding_error images Hbad) as (img & _ & _ & ->).
    cbn. intros H. injection H as <- _. left. eauto.
  - rewrite (map_segmentParts images Hbad).
    destruct (ai _) as [response|[message|]].
    + destruct (parseResponse response) as [result|[message|]].
      * destruct (image result) as [uri|]; [destruct (truthy uri)|];
          cbn; intros H; try discriminate; injection H as <- _; left; eauto.
      * cbn. intros H. injection H as <- _. left. eauto.
      * cbn. intros H. injection H as <- _. now right.
    + cbn. intros H. injection H as <- _. left. eauto.
    + cbn. intros H. injection H as <- _. now right.
Qed.

(** X6: whatever goes wrong, the pipeline throws an [Error] whose message
    is "Failed to generate image: ..." or the "unknown error" message;
    it never lets another thrown value through. *)
Theorem failures_are_reported (ai : Service) (images : list UploadedImage)
    (prompt : string) (log log' : list GenerateContentParameters) (e : Thrown) :
  mergeImagesWithAI ai images prompt log = (Abrupt e, log') ->
  (exists message, e = ErrorObject ("Failed to generate image: " ++ message))
  \/ e = ErrorObject "An unknown error occurred during image generation.".
Proof.
  exact (abrupt_is_reported ai images prompt log log' e).
Qed.

Lemma failures_are_reported_witness :
  (exists message,
      ErrorObject
        "Failed to generate image: The AI did not return an image. Please try adjusting your prompt or using different images."
      = ErrorObject ("Failed to generate image: " ++ message))
  \/ ErrorObject
       "Failed to generate image: The AI did not return an image. Please try adjusting your prompt or using different images."
     = ErrorObject "An unknown error occurred during image generation.".
Proof.
  exact (failures_are_reported textOnlyService twoImages "beach" []
           [requestOf "beach" [imagePart; imagePart]] _ eq_refl).
Defined.

(* ================================================================== *)
(** ** Submission *)
(* ================================================================== *)

Lemma truthy_length (s : string) : truthy s = (0 <? String.length s)%nat.
Proof. now destruct s. Qed.

Lemma guard_is_not_valid (st : App.State) :
  (length (App.uploadedImages st) <? 2)%nat
  || negb (truthy (trim (App.backgroundPrompt st)))
  = negb (App.isValidToSubmit st).
Proof.
  unfold App.isValidToSubmit.
  now rewrite negb_andb, truthy_length, Nat.ltb_antisym.
Qed.

Lemma normal_result_has_image (ai : Service) (images : list UploadedImage)
    (prompt : string) (log log' : list GenerateContentParameters)
    (result : GeneratedResult) :
  mergeImagesWithAI ai images prompt log = (Normal result, log') ->
  exists blob, image result = Some (dataUri blob).
Proof.
  unfold mergeImagesWithAI, tryCatch, bind, lift, generateContent.
  destruct (mapThrowing toInlinePart images) as [inlineParts|[m|]];
    [|discriminate|discriminate].
  destruct (ai _) as [response|[m|]]; [|discriminate|discriminate].
  destruct (parseResponse response) as [parsed|[m|]] eqn:Hparse;
    [|discriminate|discriminate].
  cbn beta iota.
  destruct (image parsed) as [uri|] eqn:Himg; [|discriminate].
  destruct (parse_image_is_data_uri _ _ _ Hparse Himg) as (blob & ->).
  rewrite dataUri_truthy. cbn. intros H. injection H as <- _.
  now exists blob.
Qed.

(** What a submission that passes the guard leaves: the result of the
    pipeline and no message, or its message and no result. *)
Lemma valid_submit_outcome (ai : Service) (st : App.State) :
  App.isValidToSubmit st = true ->
  (exists result blob log',
      mergeImagesWithAI ai (App.uploadedImages st) (App.backgroundPrompt st)
                        (App.dispatched st) = (Normal result, log')
      /\ image result = Some (dataUri blob)
      /\ App.handleSubmit ai st
         = App.mkState (App.uploadedImages st) (App.backgroundPrompt st) false
                       None (Some result) (App.batches st) log')
  \/ (exists message log',
         mergeImagesWithAI ai (App.uploadedImages st) (App.backgroundPrompt st)
                           (App.dispatched st) = (Abrupt (ErrorObject message), log')
         /\ reported (ErrorObject message)
         /\ App.handleSubmit ai st
            = App.mkState (App.uploadedImages st) (App.backgroundPrompt st) false
                          (Some message) None (App.batches st) log').
Proof.
  intros Hvalid. unfold App.handleSubmit.
  rewrite guard_is_not_valid, Hvalid. cbn [negb].
  cbn [App.dispatched App.setGeneratedResult App.setIsLoading App.setError].
  destruct (mergeImagesWithAI ai (App.uploadedImages st) (App.backgroundPrompt st)
                              (App.dispatched st)) as [[result|e] log'] eqn:Hmerge.
  - left.
    destruct (normal_result_has_image _ _ _ _ _ _ Hmerge) as (blob & Hblob).
    exists result, blob, log'. split; [reflexivity|]. split; [exact Hblob|reflexivity].
  - right. pose proof (abrupt_is_reported _ _ _ _ _ _ Hmerge) as Hrep.
    destruct e as [message|].
    + exists message, log'. split; [reflexivity|]. split; [exact Hrep|reflexivity].
    + destruct Hrep as [(m & Hm) | Hm]; discriminate Hm.
Qed.

Lemma reported_message_differs (message : string) :
  reported (ErrorObject message) ->
  message <> App.validationMessage /\ message <> "An unexpected error occurred.".
Proof.
  intros [(m & Hm) | Hm]; injection Hm as ->; split; discriminate.
Qed.

(** X7: a submission that passes the guard ends with the loader off and
    with either the result of the service and no message, or a message
    and no result (a result shown before is cleared); the message is the
    one the pipeline reports.  The collection, the prompt and the pending
    batches are untouched, and at most one request has been sent. *)
Theorem submit_shows_result_or_message (ai : Service) (st : App.State) :
  App.isValidToSubmit st = true ->
  App.isLoading (App.handleSubmit ai st) = false
  /\ App.uploadedImages (App.handleSubmit ai st) = App.uploadedImages st
  /\ App.backgroundPrompt (App.handleSubmit ai st) = App.backgroundPrompt st
  /\ App.batches (App.handleSubmit ai st) = App.batches st
  /\ (length (App.dispatched (App.handleSubmit ai st))
      <= length (App.dispatched st) + 1)%nat
  /\ ((App.error (App.handleSubmit ai st) = None
       /\ exists result blob,
            App.generatedResult (App.handleSubmit ai st) = Some result
            /\ image result = Some (dataUri blob))
      \/ (App.generatedResult (App.handleSubmit ai st) = None
          /\ exists message,
               App.error (App.handleSubmit ai st) = Some message
               /\ ((exists detail, message = "Failed to generate image: " ++ detail)
                   \/ message = "An unknown error occurred during image generation."))).
Proof.
  intros Hvalid.
  assert (Hlog : forall result log',
             mergeImagesWithAI ai (App.uploadedImages st) (App.backgroundPrompt st)
                               (App.dispatched st) = (result, log') ->
             (length log' <= length (App.dispatched st) + 1)%nat).
  { intros result log' Hmerge.
    pose proof (merge_log ai (App.backgroundPrompt st) (App.dispatched st)
                          (App.uploadedImages st)) as Hsnd.
    rewrite Hmerge in Hsnd. cbn [snd] in Hsnd. rewrite Hsnd.
    destruct (mapThrowing toInlinePart (App.uploadedImages st)).
    - rewrite length_app. cbn. lia.
    - lia. }
  destruct (valid_submit_outcome ai st Hvalid)
    as [(result & blob & log' & Hmerge & Hblob & ->)
       | (message & log' & Hmerge & Hrep & ->)];
    cbn; (repeat (split; [reflexivity|])); (split; [exact (Hlog _ _ Hmerge)|]).
  - left. split; [reflexivity|]. now exists result, blob.
  - right. split; [reflexivity|]. exists message. split; [reflexivity|].
    destruct Hrep as [(m & Hm) | Hm]; injection Hm as ->; [left; now exists m | now right].
Qed.

Lemma submit_shows_result_or_message_witness :
  App.generatedResult (App.handleSubmit stubService (withImages twoImages "beach"))
  = Some (mkGeneratedResult (Some "data:image/png;base64,AAAA") (Some "A fused scene."))
  /\ App.isLoading (App.handleSubmit textOnlyService (withImages twoImages "beach"))
     = false.
Proof.
  split.
  - reflexivity.
  - exact (proj1 (submit_shows_result_or_message textOnlyService
                    (withImages twoImages "beach") eq_refl)).
Defined.

(** X8: [handleSubmit] takes its validation branch exactly when
    [isValidToSubmit] is false, so the two tests agree; and a click on
    the button while it is enabled never shows the validation message. *)
Theorem submit_guard_agrees_with_button (ai : Service) (st : App.State) :
  (App.isValidToSubmit st = false
   <-> App.handleSubmit ai st = App.setError (Some App.validationMessage) st)
  /\ (App.submitDisabled st = false ->
      App.error (App.handleSubmit ai st) <> Some App.validationMessage).
Proof.
  assert (Hvalid : App.isValidToSubmit st = true ->
                   App.error (App.handleSubmit ai st) <> Some App.validationMessage).
  { intros Hv.
    destruct (valid_submit_outcome ai st Hv)
      as [(result & blob & log' & _ & _ & ->) | (message & log' & _ & Hrep & ->)];
      cbn; [discriminate|].
    intros H. injection H as H.
    destruct (reported_message_differs _ Hrep) as [Hne _]. apply Hne. exact H. }
  split; [split|].
  - intros Hno. unfold App.handleSubmit. now rewrite guard_is_not_valid, Hno.
  - intros Heq. destruct (App.isValidToSubmit st) eqn:Hv; [|reflexivity].
    exfalso. apply (Hvalid eq_refl). now rewrite Heq.
  - unfold App.submitDisabled. intros Hd. apply orb_false_elim in Hd as [Hd _].
    apply negb_false_iff in Hd. now apply Hvalid.
Qed.

Lemma submit_guard_agrees_with_button_witness :
  App.error (App.handleSubmit textOnlyService (withImages twoImages "beach"))
  <> Some App.validationMessage.
Proof.
  exact (proj2 (submit_guard_agrees_with_button textOnlyService
                  (withImages twoImages "beach")) eq_refl).
Defined.

(** X9: the message "An unexpected error occurred." of [handleSubmit] is
    never shown: everything the pipeline throws is an [Error], so the
    branch for other thrown values is never taken. *)
Theorem unexpected_error_branch_is_dead (ai : Service) (st : App.State) :
  App.error (App.handleSubmit ai st) <> Some "An unexpected error occurred.".
Proof.
  destruct (App.isValidToSubmit st) eqn:Hv.
  - destruct (valid_submit_outcome ai st Hv)
      as [(result & blob & log' & _ & _ & ->) | (message & log' & _ & Hrep & ->)];
      cbn; [discriminate|].
    intros H. injection H as H.
    destruct (reported_message_differs _ Hrep) as [_ Hne]. apply Hne. exact H.
  - unfold App.handleSubmit. rewrite guard_is_not_valid, Hv. cbn. discriminate.
Qed.

(** X10: a submission that passes the guard while some image of the
    collection has no base64 data sends nothing: it ends with the
    encoding message naming the file of the first such image, no result,
    the loader off and the log as it was. *)
Theorem submit_with_broken_image (ai : Service) (st : App.State)
    (img : UploadedImage) :
  App.isValidToSubmit st = true ->
  find noBase64Data (App.uploadedImages st) = Some img ->
  App.handleSubmit ai st
  = App.mkState (App.uploadedImages st) (App.backgroundPrompt st) false
      (Some ("Failed to generate image: Invalid base64 data for image "
             ++ name (file img)))
      None (App.batches st) (App.dispatched st).
Proof.
  intros Hvalid Hfind. unfold App.handleSubmit.
  rewrite guard_is_not_valid, Hvalid. cbn [negb].
  cbn [App.dispatched App.setGeneratedResult App.setIsLoading App.setError].
  now rewrite (merge_encoding_failure ai _ _ _ _ Hfind).
Qed.

Lemma submit_with_broken_image_witness :
  App.handleSubmit stubService
    (withImages [pngImage "a.png"; brokenImage "b.png"] "beach")
  = App.mkState [pngImage "a.png"; brokenImage "b.png"] "beach" false
      (Some "Failed to generate image: Invalid base64 data for image b.png")
      None [] [].
Proof.
  exact (submit_with_broken_image stubService
           (withImages [pngImage "a.png"; brokenImage "b.png"] "beach")
           (brokenImage "b.png") eq_refl eq_refl).
Defined.

(* ================================================================== *)
(** ** Selections and reads *)
(* ================================================================== *)

Lemma setError_setError (e e' : option string) (st : App.State) :
  App.setError e (App.setError e' st) = App.setError e st.
Proof. reflexivity. Qed.

(** The loop in closed form: it pushes no record and starts the reads of
    the files of an allowed type, or none when the collection is full. *)
Lemma forEach_closed_form (uploaded : list UploadedImage) (files : list File)
    (st : App.State) (n : nat) (started : list File) :
  exists e,
    fold_left (App.forEachFile uploaded) files (st, App.mkBatch n [] started)
    = (App.setError e st,
       App.mkBatch n []
         (started ++ if (5 <=? length uploaded)%nat then []
                     else filter (fun f => includes App.allowedTypes (type f)) files)).
Proof.
  revert st started. induction files as [|f files IH]; intros st started;
    cbn [fold_left filter].
  - exists (App.error st). destruct (5 <=? length uploaded)%nat;
      rewrite app_nil_r; now destruct st.
  - unfold App.forEachFile at 2. cbn [App.newImages length].
    rewrite Nat.add_0_r.
    destruct (5 <=? length uploaded)%nat eqn:Hcap.
    + destruct (IH (App.setError (Some App.capMessage) st) started) as (e & ->).
      exists e. reflexivity.
    + destruct (includes App.allowedTypes (type f)) eqn:Hf; cbn [negb].
      * cbn [App.filesLength App.reading].
        destruct (IH st (started ++ [f])%list) as (e & ->).
        exists e. now rewrite <- app_assoc.
      * destruct (IH (App.setError (Some (App.typeMessage (type f))) st) started)
          as (e & ->).
        exists e. reflexivity.
Qed.

Lemma handleFileChange_closed_form (files : list File) (st : App.State) :
  App.handleFileChange (Some files) st
  = App.setError None
      (App.setBatches
         (App.batches st
          ++ [App.mkBatch (length files) []
                (if (5 <=? length (App.uploadedImages st))%nat then []
                 else filter (fun f => includes App.allowedTypes (type f)) files)])
         st).
Proof.
  cbn [App.handleFileChange].
  destruct (forEach_closed_form (App.uploadedImages st) files st (length files) [])
    as (e & ->).
  reflexivity.
Qed.

(** X11: what a selection does, in closed form.  With no file list the
    handler changes nothing.  Otherwise it clears the message and records
    one batch without any record: its reads are those of the files of an
    allowed type, in the order of selection, when the collection holds
    fewer than five records, and none when it holds five or more.  The
    collection itself is not changed by the handler. *)
Theorem selection_closed_form (files : list File) (st : App.State) :
  App.handleFileChange None st = st
  /\ App.handleFileChange (Some files) st
     = App.setError None
         (App.setBatches
            (App.batches st
             ++ [App.mkBatch (length files) []
                   (if (5 <=? length (App.uploadedImages st))%nat then []
                    else filter (fun f => includes App.allowedTypes (type f)) files)])
            st).
Proof.
  split; [reflexivity | apply handleFileChange_closed_form].
Qed.

Lemma completed_nil (cs : Completions) : completed cs [] = [].
Proof.
  induction cs as [|[[k r] now] cs IH]; cbn [completed]; [reflexivity|].
  now destruct k.
Qed.

(** Completions addressed to a batch without reads in flight do nothing. *)
Lemma reads_of_idle_batch (bi : nat) (cs : Completions) (st : App.State)
    (b : App.Batch) :
  nth_error (App.batches st) bi = Some b -> App.reading b = [] ->
  App.run st (readEvents bi cs) = st.
Proof.
  intros Hb Hidle. induction cs as [|[[k r] now] cs IH]; cbn [readEvents map App.run fold_left].
  - reflexivity.
  - cbn [App.step]. unfold App.readerFile. rewrite Hb, Hidle.
    destruct k; exact IH.
Qed.

(** The reads of one batch, completing in any order: the collection
    grows when the last of them completes, by the records in the order
    of completion. *)
Lemma reads_of_batch (bi : nat) (cs : Completions) :
  forall (st : App.State) (n : nat) (done : list UploadedImage) (fs : list File),
    nth_error (App.batches st) bi = Some (App.mkBatch n done fs) ->
    n = (length done + length fs)%nat ->
    fs <> [] ->
    App.uploadedImages (App.run st (readEvents bi cs))
    = if (length (completed cs fs) =? length fs)%nat
      then (App.uploadedImages st ++ done ++ completed cs fs)%list
      else App.uploadedImages st.
Proof.
  induction cs as [|[[k r] now] cs IH]; intros st n done fs Hb Hn Hfs.
  - cbn. destruct fs; [contradiction|reflexivity].
  - cbn [readEvents map App.run fold_left completed].
    change (fold_left App.step (map _ cs) ?s) with (App.run s (readEvents bi cs)).
    cbn [App.step]. unfold App.readerFile. rewrite Hb. cbn [App.reading].
    destruct (nth_error fs k) as [f|] eqn:Hf.
    + pose proof (length_removeNth k f fs Hf) as Hlen.
      unfold App.finishRead. rewrite Hb. unfold App.onload.
      cbn [App.batches App.setBatches App.filesLength App.newImages App.reading].
      rewrite (nth_error_replaceNth bi _ _ _ Hb).
      cbn [App.batches App.setBatches App.filesLength App.newImages App.reading
           App.uploadedImages].
      fold (recordOf f r now).
      rewrite length_app. cbn [length].
      destruct (App.removeNth k fs) as [|g rest] eqn:Hrest.
      * (* the last read of the batch *)
        cbn [length] in Hlen.
        replace (length done + 1 =? n)%nat with true
          by (symmetry; apply Nat.eqb_eq; lia).
        erewrite reads_of_idle_batch.
        -- cbn [App.uploadedImages App.setUploadedImages].
           rewrite completed_nil. cbn [length].
           replace (1 =? length fs)%nat with true
             by (symmetry; apply Nat.eqb_eq; lia).
           reflexivity.
        -- cbn [App.batches App.setUploadedImages App.setBatches].
           eapply nth_error_replaceNth. eapply nth_error_replaceNth. exact Hb.
        -- reflexivity.
      * cbn [length] in Hlen.
        replace (length done + 1 =? n)%nat with false
          by (symmetry; apply Nat.eqb_neq; lia).
        erewrite IH with (n := n) (done := (done ++ [recordOf f r now])%list)
                         (fs := g :: rest).
        -- cbn [App.uploadedImages App.setBatches length].
           rewrite <- Hlen. cbn [Nat.eqb].
           destruct (_ =? _)%nat; [|reflexivity].
           now rewrite <- !app_assoc.
        -- cbn [App.batches App.setBatches].
           eapply nth_error_replaceNth. eapply nth_error_replaceNth. exact Hb.
        -- rewrite length_app. cbn [length]. lia.
        -- discriminate.
    + now apply IH with (n := n).
Qed.

Lemma nth_error_last {A : Type} (l : list A) (x : A) :
  nth_error (l ++ [x]) (length l) = Some x.
Proof.
  rewrite nth_error_app2 by lia. now rewrite Nat.sub_diag.
Qed.

(** X12: a selection of files that all have an allowed type, made while
    the collection holds fewer than five records, is appended as a whole
    and only when the last of its reads completes; until then the
    collection is unchanged.  The new records come after the old ones in
    the order in which the reads completed (not the order of selection),
    each with its file, the result of its read and the type of its
    file. *)
Theorem batch_is_appended_after_last_read (st : App.State) (files : list File)
    (cs : Completions) :
  (length (App.uploadedImages st) < 5)%nat ->
  Forall (fun f => includes App.allowedTypes (type f) = true) files ->
  files <> [] ->
  App.uploadedImages
    (App.run (App.handleFileChange (Some files) st)
             (readEvents (length (App.batches st)) cs))
  = if (length (completed cs files) =? length files)%nat
    then (App.uploadedImages st ++ completed cs files)%list
    else App.uploadedImages st.
Proof.
  intros Hcap Hfiles Hne. cbn [App.handleFileChange].
  destruct (forEach_closed_form (App.uploadedImages st) files st (length files) [])
    as (e & ->).
  replace (5 <=? length (App.uploadedImages st))%nat with false
    by (symmetry; apply Nat.leb_gt; exact Hcap).
  rewrite (filter_all _ _ Hfiles). cbn [app].
  erewrite reads_of_batch with (n := length files) (done := []) (fs := files).
  - reflexivity.
  - cbn [App.batches App.setError App.setBatches]. apply nth_error_last.
  - reflexivity.
  - exact Hne.
Qed.

Lemma batch_is_appended_after_last_read_witness :
  App.uploadedImages
    (App.run (App.handleFileChange (Some [pngFile "a.png"; pngFile "b.png"]) App.initial)
             (readEvents 0 [(1%nat, "data:image/png;base64,BBBB", 5%N);
                            (0%nat, "data:image/png;base64,AAAA", 7%N)]))
  = [recordOf (pngFile "b.png") "data:image/png;base64,BBBB" 5;
     recordOf (pngFile "a.png") "data:image/png;base64,AAAA" 7].
Proof.
  apply (batch_is_appended_after_last_read App.initial
           [pngFile "a.png"; pngFile "b.png"]
           [(1%nat, "data:image/png;base64,BBBB", 5%N);
            (0%nat, "data:image/png;base64,AAAA", 7%N)]).
  - cbn. lia.
  - repeat constructor.
  - discriminate.
Defined.

(** Completions of the reads of a short batch append nothing. *)
Lemma short_batch_is_stuck (bi : nat) (cs : Completions) :
  forall (st : App.State) (b : App.Batch),
    nth_error (App.batches st) bi = Some b -> short b ->
    App.uploadedImages (App.run st (readEvents bi cs)) = App.uploadedImages st.
Proof.
  induction cs as [|[[k r] now] cs IH]; intros st b Hb Hshort.
  - reflexivity.
  - cbn [readEvents map App.run fold_left].
    change (fold_left App.step (map _ cs) ?s) with (App.run s (readEvents bi cs)).
    destruct (short_batch_never_commits st bi k b (Some r) now Hb Hshort)
      as (Hsame & b' & Hb' & Hshort').
    now rewrite (IH _ b' Hb' Hshort').
Qed.

(** X13: a selection that contains a file of a disallowed type never
    appends anything: whichever of its reads complete, in whatever
    order, the collection stays as it was. *)
Theorem rejected_file_blocks_selection (st : App.State) (files : list File)
    (f : File) (cs : Completions) :
  In f files ->
  includes App.allowedTypes (type f) = false ->
  App.uploadedImages
    (App.run (App.handleFileChange (Some files) st)
             (readEvents (length (App.batches st)) cs))
  = App.uploadedImages st.
Proof.
  intros Hin Hbad.
  destruct (rejected_file_leaves_short_batch files f st Hin Hbad)
    as (b & Hbatches & Hshort & Hsame & _).
  rewrite <- Hsame. apply short_batch_is_stuck with (b := b); [|exact Hshort].
  rewrite Hbatches. apply nth_error_last.
Qed.

Lemma rejected_file_blocks_selection_witness :
  App.uploadedImages
    (App.run (App.handleFileChange (Some [pngFile "a.png"; gifFile "b.gif"]) App.initial)
             (readEvents 0 [(0%nat, pngUri, 1000%N)]))
  = [].
Proof.
  exact (rejected_file_blocks_selection App.initial [pngFile "a.png"; gifFile "b.gif"]
           (gifFile "b.gif") [(0%nat, pngUri, 1000%N)]
           (or_intror (or_introl eq_refl)) eq_refl).
Defined.

(** X14: one read that fails, or completes with a result that is not a
    string, blocks its batch: whichever of the other reads of the batch
    complete afterwards, the collection stays as it was. *)
Theorem failed_read_blocks_batch (st : App.State) (bi k : nat) (b : App.Batch)
    (f : File) (now : N) (cs : Completions) :
  nth_error (App.batches st) bi = Some b ->
  (length (App.newImages b) + length (App.reading b) <= App.filesLength b)%nat ->
  nth_error (App.reading b) k = Some f ->
  App.uploadedImages (App.run (App.step st (App.ReadFailed bi k)) (readEvents bi cs))
  = App.uploadedImages st
  /\ App.uploadedImages
       (App.run (App.step st (App.ReadCompleted bi k None now)) (readEvents bi cs))
     = App.uploadedImages st.
Proof.
  intros Hb Hbal Hf.
  pose proof (length_removeNth k f _ Hf) as Hlen.
  assert (Hstep : App.step st (App.ReadFailed bi k) = App.finishRead bi k st).
  { cbn [App.step]. unfold App.readerFile. now rewrite Hb, Hf. }
  assert (Hstep' : App.step st (App.ReadCompleted bi k None now) = App.finishRead bi k st).
  { cbn [App.step]. unfold App.readerFile. now rewrite Hb, Hf. }
  rewrite Hstep, Hstep'.
  assert (Hstuck : App.uploadedImages (App.run (App.finishRead bi k st) (readEvents bi cs))
                   = App.uploadedImages st).
  { unfold App.finishRead. rewrite Hb.
    erewrite short_batch_is_stuck.
    - reflexivity.
    - cbn [App.batches App.setBatches]. eapply nth_error_replaceNth. exact Hb.
    - unfold short. cbn [App.newImages App.reading App.filesLength]. lia. }
  now split.
Qed.

Lemma failed_read_blocks_batch_witness :
  App.uploadedImages
    (App.run (App.step (App.handleFileChange (Some [pngFile "a.png"; pngFile "b.png"])
                                             App.initial)
                       (App.ReadFailed 0 1))
             (readEvents 0 [(0%nat, pngUri, 1000%N)]))
  = [].
Proof.
  refine (proj1 (failed_read_blocks_batch
                   (App.handleFileChange (Some [pngFile "a.png"; pngFile "b.png"])
                                         App.initial)
                   0 1 (App.mkBatch 2 [] [pngFile "a.png"; pngFile "b.png"])
                   (pngFile "b.png") 0 [(0%nat, pngUri, 1000%N)]
                   eq_refl _ eq_refl)).
  cbn. lia.
Defined.

(* ================================================================== *)
(** ** Invariants of the component *)
(* ================================================================== *)

Lemma replaceNth_twice {A : Type} (n : nat) (x y : A) (l : list A) :
  App.replaceNth n x (App.replaceNth n y l) = App.replaceNth n x l.
Proof.
  revert n. induction l as [|z l IH]; intros [|n]; cbn [App.replaceNth];
    try reflexivity. now rewrite IH.
Qed.

(** A read in flight that completes, in closed form. *)
Lemma step_read_completed (st : App.State) (bi k : nat) (b : App.Batch) (f : File)
    (r : string) (now : N) :
  nth_error (App.batches st) bi = Some b ->
  nth_error (App.reading b) k = Some f ->
  App.step st (App.ReadCompleted bi k (Some r) now)
  = let b' := App.mkBatch (App.filesLength b)
                          (App.newImages b ++ [recordOf f r now])
                          (App.removeNth k (App.reading b)) in
    let st' := App.setBatches (App.replaceNth bi b' (App.batches st)) st in
    if (length (App.newImages b') =? App.filesLength b')%nat
    then App.setUploadedImages (App.uploadedImages st ++ App.newImages b') st'
    else st'.
Proof.
  intros Hb Hf. cbn [App.step]. unfold App.readerFile. rewrite Hb, Hf.
  unfold App.finishRead. rewrite Hb. unfold App.onload.
  cbn [App.batches App.setBatches].
  rewrite (nth_error_replaceNth bi _ _ _ Hb).
  cbn [App.filesLength App.newImages App.reading App.batches App.setBatches
       App.uploadedImages].
  rewrite replaceNth_twice. reflexivity.
Qed.

(** A read in flight that fails, or completes without a string. *)
Lemma step_read_lost (st : App.State) (bi k : nat) (b : App.Batch) (f : File)
    (now : N) :
  nth_error (App.batches st) bi = Some b ->
  nth_error (App.reading b) k = Some f ->
  App.step st (App.ReadFailed bi k)
  = App.setBatches
      (App.replaceNth bi (App.mkBatch (App.filesLength b) (App.newImages b)
                                      (App.removeNth k (App.reading b)))
                      (App.batches st)) st
  /\ App.step st (App.ReadCompleted bi k None now) = App.step st (App.ReadFailed bi k).
Proof.
  intros Hb Hf. cbn [App.step]. unfold App.readerFile. rewrite Hb, Hf.
  unfold App.finishRead. rewrite Hb. split; reflexivity.
Qed.

(** An event that names no read in flight. *)
Lemma step_read_unknown (st : App.State) (bi k : nat) (result : option string)
    (now : N) :
  App.readerFile bi k st = None ->
  App.step st (App.ReadCompleted bi k result now) = st
  /\ App.step st (App.ReadFailed bi k) = st.
Proof. intros H. cbn [App.step]. now rewrite H. Qed.

Lemma readerFile_some (st : App.State) (bi k : nat) (f : File) :
  App.readerFile bi k st = Some f ->
  exists b, nth_error (App.batches st) bi = Some b
            /\ nth_error (App.reading b) k = Some f.
Proof.
  unfold App.readerFile. destruct (nth_error (App.batches st) bi) as [b|]; [|discriminate].
  intros H. now exists b.
Qed.

Lemma handleSubmit_dispatched (ai : Service) (st : App.State) :
  App.dispatched (App.handleSubmit ai st)
  = if App.isValidToSubmit st
    then snd (mergeImagesWithAI ai (App.uploadedImages st) (App.backgroundPrompt st)
                                (App.dispatched st))
    else App.dispatched st.
Proof.
  unfold App.handleSubmit. rewrite guard_is_not_valid.
  destruct (App.isValidToSubmit st); cbn [negb]; [|reflexivity].
  cbn [App.dispatched App.setGeneratedResult App.setIsLoading App.setError].
  destruct (mergeImagesWithAI _ _ _ _) as [[result|[message|]] log']; reflexivity.
Qed.

(** Only a submission can extend the log. *)
Lemma step_dispatched (st : App.State) (ev : App.Event) :
  App.dispatched (App.step st ev)
  = match ev with
    | App.SubmitClicked ai => App.dispatched (App.handleSubmit ai st)
    | _ => App.dispatched st
    end.
Proof.
  destruct ev as [files|bi k result now|bi k|id|value|ai]; try reflexivity.
  - destruct files as [files|]; [|reflexivity].
    cbn [App.step]. now rewrite handleFileChange_closed_form.
  - destruct (App.readerFile bi k st) as [f|] eqn:Hread.
    + destruct (readerFile_some _ _ _ _ Hread) as (b & Hb & Hf).
      destruct result as [r|].
      * rewrite (step_read_completed st bi k b f r now Hb Hf). cbn zeta.
        now destruct (_ =? _)%nat.
      * now rewrite (proj2 (step_read_lost st bi k b f now Hb Hf)),
                    (proj1 (step_read_lost st bi k b f now Hb Hf)).
    + now rewrite (proj1 (step_read_unknown st bi k result now Hread)).
  - destruct (App.readerFile bi k st) as [f|] eqn:Hread.
    + destruct (readerFile_some _ _ _ _ Hread) as (b & Hb & Hf).
      now rewrite (proj1 (step_read_lost st bi k b f 0%N Hb Hf)).
    + now rewrite (proj2 (step_read_unknown st bi k None 0%N Hread)).
Qed.

Lemma step_balanced (st : App.State) (ev : App.Event) :
  Forall balanced (App.batches st) -> Forall balanced (App.batches (App.step st ev)).
Proof.
  intros Hst.
  assert (Hlost : forall bi k b f,
             nth_error (App.batches st) bi = Some b ->
             nth_error (App.reading b) k = Some f ->
             Forall balanced
               (App.replaceNth bi
                  (App.mkBatch (App.filesLength b) (App.newImages b)
                               (App.removeNth k (App.reading b)))
                  (App.batches st))).
  { intros bi k b f Hb Hf. apply Forall_replaceNth; [|exact Hst].
    pose proof (Forall_nth_error _ _ _ _ Hst Hb) as Hbal.
    pose proof (length_removeNth k f _ Hf) as Hlen.
    unfold balanced in *. cbn [App.newImages App.reading App.filesLength]. lia. }
  destruct ev as [files|bi k result now|bi k|id|value|ai];
    [| | |exact Hst|exact Hst
     |cbn [App.step]; now rewrite (proj2 (handleSubmit_frame ai st))].
  - destruct files as [files|]; [|exact Hst].
    cbn [App.step]. rewrite handleFileChange_closed_form.
    cbn [App.batches App.setError App.setBatches].
    apply Forall_app. split; [exact Hst|]. constructor; [|constructor].
    unfold balanced. cbn [App.newImages App.reading App.filesLength length].
    destruct (5 <=? _)%nat; [cbn; lia | apply filter_length_le].
  - destruct (App.readerFile bi k st) as [f|] eqn:Hread.
    + destruct (readerFile_some _ _ _ _ Hread) as (b & Hb & Hf).
      destruct result as [r|].
      * rewrite (step_read_completed st bi k b f r now Hb Hf). cbn zeta.
        assert (Hnew : Forall balanced
                         (App.replaceNth bi
                            (App.mkBatch (App.filesLength b)
                               (App.newImages b ++ [recordOf f r now])
                               (App.removeNth k (App.reading b)))
                            (App.batches st))).
        { apply Forall_replaceNth; [|exact Hst].
          pose proof (Forall_nth_error _ _ _ _ Hst Hb) as Hbal.
          pose proof (length_removeNth k f _ Hf) as Hlen.
          unfold balanced in *. cbn [App.newImages App.reading App.filesLength].
          rewrite length_app. cbn [length]. lia. }
        now destruct (_ =? _)%nat.
      * rewrite (proj2 (step_read_lost st bi k b f now Hb Hf)),
                (proj1 (step_read_lost st bi k b f now Hb Hf)).
        exact (Hlost bi k b f Hb Hf).
    + now rewrite (proj1 (step_read_unknown st bi k result now Hread)).
  - destruct (App.readerFile bi k st) as [f|] eqn:Hread.
    + destruct (readerFile_some _ _ _ _ Hread) as (b & Hb & Hf).
      rewrite (proj1 (step_read_lost st bi k b f 0%N Hb Hf)).
      exact (Hlost bi k b f Hb Hf).
    + now rewrite (proj2 (step_read_unknown st bi k None 0%N Hread)).
Qed.

(** X15: in every state the component can reach, a batch holds no more
    records and reads in flight than files were selected; so when the
    commit test of a batch succeeds none of its reads is left, and no
    later event of that batch can append it a second time. *)
Theorem batches_stay_balanced (evs : list App.Event) :
  Forall balanced (App.batches (App.run App.initial evs))
  /\ forall bi b cs,
       nth_error (App.batches (App.run App.initial evs)) bi = Some b ->
       length (App.newImages b) = App.filesLength b ->
       App.run (App.run App.initial evs) (readEvents bi cs) = App.run App.initial evs.
Proof.
  assert (Hbal : forall evs st, Forall balanced (App.batches st) ->
                                Forall balanced (App.batches (App.run st evs))).
  { clear evs. induction evs as [|ev evs IH]; intros st Hst; cbn [App.run fold_left].
    - exact Hst.
    - apply IH. now apply step_balanced. }
  specialize (Hbal evs App.initial (Forall_nil _)).
  split; [exact Hbal|].
  intros bi b cs Hb Hfull. apply reads_of_idle_batch with (b := b); [exact Hb|].
  pose proof (Forall_nth_error _ _ _ _ Hbal Hb) as Hb'. unfold balanced in Hb'.
  destruct (App.reading b); [reflexivity | cbn [length] in Hb'; lia].
Qed.

Section Records.

Variable P : UploadedImage -> Prop.
Hypothesis P_recordOf : forall f r now, P (recordOf f r now).

Lemma step_records (st : App.State) (ev : App.Event) :
  recordsSatisfy P st -> recordsSatisfy P (App.step st ev).
Proof.
  intros [Himgs Hbatches].
  assert (Hlost : forall bi k b,
             nth_error (App.batches st) bi = Some b ->
             Forall (fun b => Forall P (App.newImages b))
               (App.replaceNth bi
                  (App.mkBatch (App.filesLength b) (App.newImages b)
                               (App.removeNth k (App.reading b)))
                  (App.batches st))).
  { intros bi k b Hb. apply Forall_replaceNth; [|exact Hbatches].
    exact (Forall_nth_error _ _ _ _ Hbatches Hb). }
  destruct ev as [files|bi k result now|bi k|id|value|ai].
  - destruct files as [files|]; [|now split].
    cbn [App.step]. rewrite handleFileChange_closed_form. split; cbn; [exact Himgs|].
    apply Forall_app. split; [exact Hbatches|]. repeat constructor.
  - destruct (App.readerFile bi k st) as [f|] eqn:Hread.
    + destruct (readerFile_some _ _ _ _ Hread) as (b & Hb & Hf).
      destruct result as [r|].
      * rewrite (step_read_completed st bi k b f r now Hb Hf). cbn zeta.
        assert (Hnew : Forall P (App.newImages b ++ [recordOf f r now])).
        { apply Forall_app. split.
          - exact (Forall_nth_error _ _ _ _ Hbatches Hb).
          - repeat constructor. apply P_recordOf. }
        assert (Hbs : Forall (fun b => Forall P (App.newImages b))
                        (App.replaceNth bi
                           (App.mkBatch (App.filesLength b)
                              (App.newImages b ++ [recordOf f r now])
                              (App.removeNth k (App.reading b)))
                           (App.batches st))).
        { apply Forall_replaceNth; [exact Hnew | exact Hbatches]. }
        cbn [App.newImages App.filesLength].
        destruct (_ =? _)%nat; split; cbn; try assumption.
        apply Forall_app. now split.
      * rewrite (proj2 (step_read_lost st bi k b f now Hb Hf)),
                (proj1 (step_read_lost st bi k b f now Hb Hf)).
        split; cbn; [exact Himgs | exact (Hlost bi k b Hb)].
    + now rewrite (proj1 (step_read_unknown st bi k result now Hread)).
  - destruct (App.readerFile bi k st) as [f|] eqn:Hread.
    + destruct (readerFile_some _ _ _ _ Hread) as (b & Hb & Hf).
      rewrite (proj1 (step_read_lost st bi k b f 0%N Hb Hf)).
      split; cbn; [exact Himgs | exact (Hlost bi k b Hb)].
    + now rewrite (proj2 (step_read_unknown st bi k None 0%N Hread)).
  - split; cbn; [|exact Hbatches].
    rewrite Forall_forall in *. intros img Himg.
    apply filter_In in Himg as [Himg _]. now apply Himgs.
  - now split.
  - destruct (handleSubmit_frame ai st) as [Hu Hb].
    split; cbn [App.step]; [now rewrite Hu | now rewrite Hb].
Qed.

Lemma run_records (evs : list App.Event) :
  Forall P (App.uploadedImages (App.run App.initial evs)).
Proof.
  assert (H : forall evs st, recordsSatisfy P st -> recordsSatisfy P (App.run st evs)).
  { clear evs. induction evs as [|ev evs IH]; intros st Hst; cbn [App.run fold_left].
    - exact Hst.
    - apply IH. now apply step_records. }
  apply (H evs App.initial). split; constructor.
Qed.

End Records.

(** X16: every record the collection ever holds is labelled by its file:
    its MIME type is the declared type of the file, and its id is the
    name of the file, a dash and a decimal time stamp. *)
Theorem records_are_labelled (evs : list App.Event) :
  Forall (fun img =>
            Types.mimeType img = type (file img)
            /\ exists now, id img = name (file img) ++ "-" ++ numberToString now)
         (App.uploadedImages (App.run App.initial evs)).
Proof.
  apply run_records. intros f r now. split; [reflexivity|]. now exists now.
Qed.

Lemma batches_stay_balanced_witness :
  App.run (App.run App.initial
             [App.FilesSelected (Some [pngFile "a.png"]);
              App.ReadCompleted 0 0 (Some pngUri) 1000])
          (readEvents 0 [(0%nat, pngUri, 2000%N)])
  = App.run App.initial
      [App.FilesSelected (Some [pngFile "a.png"]);
       App.ReadCompleted 0 0 (Some pngUri) 1000].
Proof.
  exact (proj2 (batches_stay_balanced
                  [App.FilesSelected (Some [pngFile "a.png"]);
                   App.ReadCompleted 0 0 (Some pngUri) 1000])
               0%nat (App.mkBatch 1 [pngImage "a.png"] []) [(0%nat, pngUri, 2000%N)]
               eq_refl eq_refl).
Defined.

Lemma submit_extends_log (ai : Service) (st : App.State) :
  exists suffix,
    App.dispatched (App.handleSubmit ai st) = (App.dispatched st ++ suffix)%list
    /\ (length suffix <= 1)%nat.
Proof.
  rewrite handleSubmit_dispatched.
  destruct (App.isValidToSubmit st).
  - rewrite merge_log.
    destruct (mapThrowing toInlinePart (App.uploadedImages st)) as [inlineParts|e].
    + eexists. split; [reflexivity | cbn; lia].
    + exists []. split; [now rewrite app_nil_r | cbn; lia].
  - exists []. split; [now rewrite app_nil_r | cbn; lia].
Qed.

(** X17: the service is called on submissions only and at most once for
    each: over any events, the log grows at its end, by no more requests
    than there were clicks on the submit button. *)
Theorem requests_bounded_by_submissions (evs : list App.Event) (st : App.State) :
  exists suffix,
    App.dispatched (App.run st evs) = (App.dispatched st ++ suffix)%list
    /\ (length suffix <= submissions evs)%nat.
Proof.
  revert st. induction evs as [|ev evs IH]; intros st; cbn [App.run fold_left].
  - exists []. split; [now rewrite app_nil_r | cbn; lia].
  - destruct (IH (App.step st ev)) as (suffix & Hrun & Hlen).
    change (fold_left App.step evs (App.step st ev))
      with (App.run (App.step st ev) evs).
    rewrite Hrun, step_dispatched. unfold submissions in *. cbn [filter].
    destruct ev as [files|bi k result now|bi k|id|value|ai];
      try (exists suffix; split; [reflexivity | exact Hlen]).
    destruct (submit_extends_log ai st) as (one & -> & Hone).
    exists (one ++ suffix)%list. split; [now rewrite app_assoc|].
    rewrite length_app. cbn [length]. lia.
Qed.

Lemma segmentPart_sound (img : UploadedImage) :
  allowed (Types.mimeType img) = true ->
  noBase64Data img = false ->
  soundPart (segmentPart img).
Proof.
  unfold noBase64Data, segmentPart, soundPart. intros Hmime Hdata.
  destruct (nth_error (split comma (base64 img)) 1) as [d|]; [|discriminate].
  exists (Types.mimeType img), d. repeat split; [exact Hmime|].
  now apply negb_false_iff in Hdata.
Qed.

Lemma submit_sends_sound_requests (ai : Service) (st : App.State) :
  allAllowed st ->
  Forall soundRequest (App.dispatched st) ->
  Forall soundRequest (App.dispatched (App.handleSubmit ai st)).
Proof.
  intros [Himgs _] Hlog. rewrite handleSubmit_dispatched.
  destruct (App.isValidToSubmit st) eqn:Hvalid; [|exact Hlog].
  rewrite merge_log.
  destruct (existsb noBase64Data (App.uploadedImages st)) eqn:Hbad.
  - destruct (map_failure_is_encoding_error _ Hbad) as (img & _ & _ & ->).
    exact Hlog.
  - rewrite (map_segmentParts _ Hbad).
    apply Forall_app. split; [exact Hlog|]. constructor; [|constructor].
    unfold App.isValidToSubmit in Hvalid. apply andb_prop in Hvalid as [Hlen Hprompt].
    exists (App.backgroundPrompt st), (map segmentPart (App.uploadedImages st)).
    split; [reflexivity|]. split; [now rewrite truthy_length|].
    split; [rewrite length_map; now apply Nat.leb_le|].
    apply Forall_map. rewrite Forall_forall in *. intros img Himg.
    apply segmentPart_sound; [now apply Himgs|].
    destruct (noBase64Data img) eqn:Himgbad; [|reflexivity].
    rewrite <- Hbad. symmetry. apply existsb_exists. now exists img.
Qed.

(** X18: every request the component ever sends is well formed: its
    instruction embeds a prompt that is not empty after trimming, and it
    carries at least two inline parts, each with a MIME type of the
    allow-list and a non-empty payload. *)
Theorem requests_are_sound (evs : list App.Event) :
  Forall soundRequest (App.dispatched (App.run App.initial evs)).
Proof.
  assert (H : forall evs st,
             allAllowed st -> Forall soundRequest (App.dispatched st) ->
             Forall soundRequest (App.dispatched (App.run st evs))).
  { clear evs. induction evs as [|ev evs IH]; intros st Hst Hlog;
      cbn [App.run fold_left].
    - exact Hlog.
    - apply IH; [now apply step_allowed|].
      rewrite step_dispatched.
      destruct ev as [files|bi k result now|bi k|id|value|ai]; try exact Hlog.
      now apply submit_sends_sound_requests. }
  apply H; [split; constructor | constructor].
Qed.
